(** * letterfin: the review and availability parsers

    A shallow embedding of [src/parser/review_parser.py] and
    [src/parser/wheretowatch_parser.py].  Python values are modelled as the
    interpreter has them: a [str] is a sequence of code points, an exception
    is a value that an error monad threads through the calls, a parsed HTML
    document is the tree of [Tag] objects that BeautifulSoup builds and a
    decoded JSON document is the value that [json.loads] returns. *)

From Stdlib Require Import List ZArith NArith Bool Lia String Ascii.
From Stdlib Require Import SpecFloat DecimalString DecimalN DecimalPos.
Import ListNotations.

Set Implicit Arguments.
Set Warnings "-register-all".

(** ** Python strings *)

Module Py.

(** A Python [str] is a sequence of Unicode code points. *)
Definition char := N.
Definition str := list char.

(** An ASCII literal of the source, as a [str]. *)
Definition lit (s : string) : str :=
  List.map N_of_ascii (list_ascii_of_string s).

Definition char_eqb (a b : char) : bool := N.eqb a b.

Fixpoint str_eqb (a b : str) : bool :=
  match a, b with
  | [], [] => true
  | x :: a', y :: b' => char_eqb x y && str_eqb a' b'
  | _, _ => false
  end.

(** [str.isspace] for one code point; [str.strip()] and the regular
    expression class [\s] on a [str] pattern use the same set. *)
Definition isspace (c : char) : bool :=
  ((0x09 <=? c) && (c <=? 0x0D) || (0x1C <=? c) && (c <=? 0x20)
   || (c =? 0x85) || (c =? 0xA0) || (c =? 0x1680)
   || (0x2000 <=? c) && (c <=? 0x200A)
   || (c =? 0x2028) || (c =? 0x2029) || (c =? 0x202F)
   || (c =? 0x205F) || (c =? 0x3000))%N.

Definition SPACE : char := 0x20%N.
Definition NEWLINE : char := 0x0A%N.
Definition SLASH : char := 0x2F%N.
Definition HYPHEN : char := 0x2D%N.
Definition PLUS : char := 0x2B%N.
Definition UNDERSCORE : char := 0x5F%N.
(** U+2605 BLACK STAR and U+00BD VULGAR FRACTION ONE HALF. *)
Definition BLACK_STAR : char := 0x2605%N.
Definition ONE_HALF : char := 0xBD%N.

(** [s.startswith(prefix)] *)
Fixpoint startswith (prefix s : str) : bool :=
  match prefix, s with
  | [], _ => true
  | p :: prefix', c :: s' => char_eqb p c && startswith prefix' s'
  | _ :: _, [] => false
  end.

Fixpoint lstrip_by (f : char -> bool) (s : str) : str :=
  match s with
  | [] => []
  | c :: s' => if f c then lstrip_by f s' else s
  end.

Definition rstrip_by (f : char -> bool) (s : str) : str :=
  rev (lstrip_by f (rev s)).

Definition strip_by (f : char -> bool) (s : str) : str :=
  rstrip_by f (lstrip_by f s).

(** [s.strip()] *)
Definition strip (s : str) : str := strip_by isspace s.

(** [s.strip(chars)] *)
Definition strip_chars (chars s : str) : str :=
  strip_by (fun c => existsb (char_eqb c) chars) s.

(** [sep.join(parts)] *)
Fixpoint join (sep : str) (parts : list str) : str :=
  match parts with
  | [] => []
  | [p] => p
  | p :: rest => p ++ sep ++ join sep rest
  end.

(** [s.split(sep)] for a separator of one character. *)
Fixpoint split_acc (sep : char) (cur : str) (s : str) : list str :=
  match s with
  | [] => [rev cur]
  | c :: s' =>
      if char_eqb c sep then rev cur :: split_acc sep [] s'
      else split_acc sep (c :: cur) s'
  end.

Definition split (sep : char) (s : str) : list str := split_acc sep [] s.

(** [s.count(c)] for a string [c] of one character. *)
Definition count (c : char) (s : str) : nat :=
  List.length (filter (char_eqb c) s).

(** [sub in s] *)
Fixpoint contains (sub s : str) : bool :=
  startswith sub s ||
  match s with
  | [] => false
  | _ :: s' => contains sub s'
  end.

(** [s.replace(old, new)]: the occurrences of [old] are replaced from left
    to right without overlap; [skip] counts the characters of a replaced
    occurrence that are still to be passed over. *)
Fixpoint replace_from (old new : str) (skip : nat) (s : str) : str :=
  match s with
  | [] => []
  | c :: s' =>
      match skip with
      | S k => replace_from old new k s'
      | O =>
          if startswith old s
          then new ++ replace_from old new (List.length old - 1) s'
          else c :: replace_from old new 0 s'
      end
  end.

Definition replace (old new s : str) : str :=
  match old with
  | [] => new ++ flat_map (fun c => c :: new) s
  | _ => replace_from old new 0 s
  end.

(** [re.sub(r'\s+', ' ', s)]: every maximal run of white space becomes one
    space; [in_run] tells that the previous character was white space. *)
Fixpoint sub_spaces (in_run : bool) (s : str) : str :=
  match s with
  | [] => []
  | c :: s' =>
      if isspace c
      then (if in_run then sub_spaces true s' else SPACE :: sub_spaces true s')
      else c :: sub_spaces false s'
  end.

Definition re_sub_spaces (s : str) : str := sub_spaces false s.

(** ** Exceptions

    Only what the program can observe of an exception is kept: its class; for
    [JSONDecodeError] and [KeyError] the text [str(e)], which the handler of
    [get_services] interpolates; for a [ValueError] its message, when the
    program builds it ([None] for the messages of built-ins such as [int] and
    [float], which the program never reads), and the exception that was being
    handled when it was raised ([__context__]). *)
Inductive exn : Type :=
| JSONDecodeError (msg : str)
| KeyError (msg : str)
| ValueError (msg : option str) (context : option exn)
| AttributeError
| TypeError
| IndexError
| OverflowError.

(** The outcome of a call: a value, or an exception that propagates. *)
Inductive result (A : Type) : Type :=
| Ok (a : A)
| Raise (e : exn).
Arguments Ok {A} a.
Arguments Raise {A} e.

Definition bind {A B} (r : result A) (k : A -> result B) : result B :=
  match r with
  | Ok a => k a
  | Raise e => Raise e
  end.

Declare Scope py_scope.
Delimit Scope py_scope with py.
Notation "x <- e ;; k" := (bind e (fun x => k))
  (at level 61, e at next level, right associativity) : py_scope.
Open Scope py_scope.

(** [[f(x) for x in xs]]: the elements are evaluated in order and the first
    exception ends the evaluation. *)
Fixpoint traverse {A B} (f : A -> result B) (xs : list A) : result (list B) :=
  match xs with
  | [] => Ok []
  | x :: xs' =>
      match f x with
      | Raise e => Raise e
      | Ok y =>
          match traverse f xs' with
          | Raise e => Raise e
          | Ok ys => Ok (y :: ys)
          end
      end
  end.

(** ** [int(s)] for a [str]

    White space around the literal is ignored; an optional sign is followed
    by decimal digits, where single underscores may separate digits.  The
    decimal digits outside ASCII, which CPython accepts too, are not
    modelled: the markup this program reads writes its counts in ASCII. *)
Definition is_digit (c : char) : bool := ((0x30 <=? c) && (c <=? 0x39))%N.
Definition digit_value (c : char) : Z := Z.of_N (c - 0x30).

Fixpoint int_digits (acc : Z) (after_digit : bool) (s : str) : option Z :=
  match s with
  | [] => if after_digit then Some acc else None
  | c :: s' =>
      if is_digit c then int_digits (10 * acc + digit_value c) true s'
      else if char_eqb c UNDERSCORE && after_digit then int_digits acc false s'
      else None
  end.

Definition int_literal (s : str) : option Z :=
  match s with
  | c :: s' =>
      if char_eqb c HYPHEN then option_map Z.opp (int_digits 0 false s')
      else if char_eqb c PLUS then int_digits 0 false s'
      else int_digits 0 false s
  | [] => None
  end.

Definition int_of_str (s : str) : result Z :=
  match int_literal (strip s) with
  | Some n => Ok n
  | None => Raise (ValueError None None)
  end.

(** ** Floats

    A Python [float] is an IEEE 754 binary64 number: the Standard Library's
    [spec_float] at precision 53 and maximal exponent 1024. *)
Definition float := spec_float.
Definition prec : Z := 53.
Definition emax : Z := 1024.

Definition float_zero : float := S754_zero false.
(** The literal [0.5], that is 2^52 * 2^-53. *)
Definition float_half : float := S754_finite false (2 ^ 52)%positive (-53).

(** An integer times a power of two, rounded to the nearest float (ties to
    even); a result beyond the largest float is [OverflowError]. *)
Definition float_of_scaled (n : Z) (e : Z) : result float :=
  match binary_normalize prec emax n e false with
  | S754_infinity _ => Raise OverflowError
  | f => Ok f
  end.

(** [float(n)] for an [int] [n]. *)
Definition float_of_int (n : Z) : result float := float_of_scaled n 0.

(** [n / 2] for an [int] [n]: true division is correctly rounded, and the
    quotient by two is [n] scaled by 2^-1. *)
Definition int_truediv_2 (n : Z) : result float := float_of_scaled n (-1).

(** [x + y] for two floats. *)
Definition float_add (x y : float) : float := SFadd prec emax x y.

(** [n + y] for an [int] [n] and a float [y]: the [int] is converted first. *)
Definition int_add_float (n : Z) (y : float) : result float :=
  x <- float_of_int n ;; Ok (float_add x y).

(** [bool(x)] for a float: zero of either sign is false, a NaN is true. *)
Definition float_truthy (x : float) : bool :=
  match x with
  | S754_zero _ => false
  | _ => true
  end.

(** ** [str(x)] for a float

    [float.__repr__] writes the shortest decimal numeral that reads back as
    the same float, the one closest to the float when several of that length
    do; it uses the positional notation when the decimal point falls within
    (-4, 16], and the exponent notation otherwise. *)

Local Open Scope Z_scope.

(** [10^p <= m * 2^e], on integers. *)
Definition pow10_le (p : Z) (m : positive) (e : Z) : bool :=
  (10 ^ Z.max p 0 * 2 ^ Z.max (- e) 0 <=? Zpos m * 2 ^ Z.max e 0 * 10 ^ Z.max (- p) 0)%Z.

(** The decimal order of magnitude of [m * 2^e]: the [p] with
    [10^p <= m * 2^e < 10^(p+1)], searched upwards from a lower estimate. *)
Fixpoint magnitude_from (fuel : nat) (p : Z) (m : positive) (e : Z) : Z :=
  match fuel with
  | O => p
  | S fuel' => if pow10_le (p + 1) m e then magnitude_from fuel' (p + 1) m e else p
  end.

Definition magnitude (m : positive) (e : Z) : Z :=
  let bits := (Zpos (digits2_pos m) + e)%Z in
  magnitude_from 8 ((bits - 1) * 30102 / 100000 - 2)%Z m e.

(** The floats that round to [m * 2^e] lie between the midpoints to its two
    neighbours; in units of 2^(e-2) the float is [4m], the upper midpoint is
    [4m + 2] and the lower one is [4m - 2], or [4m - 1] when the float is a
    power of two above the subnormal range, whose lower neighbour is twice as
    close.  The midpoints themselves round to it when [m] is even. *)
Definition lower_midpoint (m : positive) (e : Z) : Z :=
  if (Zpos m =? 2 ^ (prec - 1))%Z && (3 - emax - prec <? e)%Z
  then 4 * Zpos m - 1 else 4 * Zpos m - 2.

Definition upper_midpoint (m : positive) : Z := 4 * Zpos m + 2.

(** [D * 10^k] compared with [X * 2^(e-2)]. *)
Definition decimal_compare (D k X e : Z) : comparison :=
  let a := (e - 2)%Z in
  (D * 10 ^ Z.max k 0 * 2 ^ Z.max (- a) 0 ?= X * 2 ^ Z.max a 0 * 10 ^ Z.max (- k) 0)%Z.

Definition reads_back (m : positive) (e : Z) (D k : Z) : bool :=
  let lo := decimal_compare D k (lower_midpoint m e) e in
  let hi := decimal_compare D k (upper_midpoint m) e in
  if Z.even (Zpos m)
  then match lo, hi with (Eq | Gt), (Eq | Lt) => true | _, _ => false end
  else match lo, hi with Gt, Lt => true | _, _ => false end.

(** The largest [D] with [D * 10^k <= m * 2^e]. *)
Definition decimal_floor (m : positive) (e k : Z) : Z :=
  (Zpos m * 2 ^ Z.max e 0 * 10 ^ Z.max (- k) 0 / (10 ^ Z.max k 0 * 2 ^ Z.max (- e) 0))%Z.

(** The candidate with [d] digits, if one reads back: of the two multiples of
    [10^k] around the float, the closer one that does. *)
Definition candidate (m : positive) (e : Z) (p : Z) (d : Z) : option (Z * Z) :=
  let k := (p - d + 1)%Z in
  let D := decimal_floor m e k in
  let below := reads_back m e D k in
  let above := reads_back m e (D + 1) k in
  match below, above with
  | false, false => None
  | true, false => Some (D, k)
  | false, true => Some (D + 1, k)
  | true, true =>
      (* both read back: [2 * m * 2^e] against [(2D + 1) * 10^k] *)
      match decimal_compare (2 * D + 1) k (8 * Zpos m) e with
      | Gt => Some (D, k)
      | Lt => Some (D + 1, k)
      | Eq => if Z.even D then Some (D, k) else Some (D + 1, k)
      end
  end.

Fixpoint shortest_from (fuel : nat) (m : positive) (e p d : Z) : Z * Z :=
  match candidate m e p d with
  | Some r => r
  | None =>
      match fuel with
      | O => (decimal_floor m e (p - d + 1), (p - d + 1)%Z)
      | S fuel' => shortest_from fuel' m e p (d + 1)
      end
  end.

Fixpoint strip_zeros (fuel : nat) (D k : Z) : Z * Z :=
  match fuel with
  | O => (D, k)
  | S fuel' =>
      if (D mod 10 =? 0)%Z then strip_zeros fuel' (D / 10)%Z (k + 1)%Z else (D, k)
  end.

(** The digits of the shortest numeral and the exponent of their last digit. *)
Definition shortest_digits (m : positive) (e : Z) : Z * Z :=
  let '(D, k) := shortest_from 17 m e (magnitude m e) 1 in
  strip_zeros 20 D k.

(** [str(n)] for a natural number. *)
Definition decimal (n : N) : str := lit (NilZero.string_of_uint (N.to_uint n)).

Definition zeros (n : Z) : str := repeat 0x30%N (Z.to_nat n).

Definition format_fixed (ds : str) (decpt : Z) : str :=
  let n := Z.of_nat (List.length ds) in
  if (decpt <=? 0)%Z then lit "0." ++ zeros (- decpt) ++ ds
  else if (decpt <? n)%Z
  then firstn (Z.to_nat decpt) ds ++ lit "." ++ skipn (Z.to_nat decpt) ds
  else ds ++ zeros (decpt - n) ++ lit ".0".

Definition format_exponent (ds : str) (decpt : Z) : str :=
  let x := (decpt - 1)%Z in
  let xs := decimal (Z.to_N (Z.abs x)) in
  firstn 1 ds
  ++ (match skipn 1 ds with [] => [] | frac => lit "." ++ frac end)
  ++ lit "e" ++ (if (x <? 0)%Z then lit "-" else lit "+")
  ++ (if (Z.abs x <? 10)%Z then lit "0" ++ xs else xs).

Definition float_repr (x : float) : str :=
  match x with
  | S754_nan => lit "nan"
  | S754_infinity s => if s then lit "-inf" else lit "inf"
  | S754_zero s => if s then lit "-0.0" else lit "0.0"
  | S754_finite s m e =>
      let '(D, k) := shortest_digits m e in
      let ds := decimal (Z.to_N D) in
      let decpt := (Z.of_nat (List.length ds) + k)%Z in
      (if s then lit "-" else [])
      ++ (if (-4 <? decpt)%Z && (decpt <=? 16)%Z
          then format_fixed ds decpt else format_exponent ds decpt)
  end.

Definition float_one : float := S754_finite false (2 ^ 52)%positive (-52).

End Py.

Import Py.

Open Scope py_scope.

(** ** BeautifulSoup trees

    What [BeautifulSoup(html, 'html.parser')] builds: a [Tag] has a name, its
    attributes and its contents, which are tags and strings in document
    order.  The [class] attribute is kept by BeautifulSoup as the list of its
    tokens; the other attributes this program reads ([href], [src],
    [datetime], [data-count]) are plain strings.  A [Comment] stands for the
    strings that [get_text] leaves out. *)
Module Bs4.

Inductive content (T : Type) : Type :=
| Child (t : T)
| NavigableString (s : str)
| Comment (s : str).
Arguments Child {T} t.
Arguments NavigableString {T} s.
Arguments Comment {T} s.

Inductive tag : Type :=
| Tag (name : str) (class_ : option (list str)) (attrs : list (str * str))
      (contents : list (content tag)).

Definition name (t : tag) : str := let 'Tag n _ _ _ := t in n.
Definition class_ (t : tag) : option (list str) := let 'Tag _ c _ _ := t in c.
Definition attrs (t : tag) : list (str * str) := let 'Tag _ _ a _ := t in a.
Definition contents (t : tag) : list (content tag) := let 'Tag _ _ _ c := t in c.

(** [dict] lookup by key, on the association list of the entries. *)
Fixpoint dict_get {V : Type} (key : str) (d : list (str * V)) : option V :=
  match d with
  | [] => None
  | (k, v) :: d' => if str_eqb key k then Some v else dict_get key d'
  end.

Definition dict_contains {V : Type} (key : str) (d : list (str * V)) : bool :=
  match dict_get key d with
  | Some _ => true
  | None => false
  end.

(** [str(KeyError(key))] is the [repr] of the key. *)
Definition key_error (key : str) : exn := KeyError (lit "'" ++ key ++ lit "'").

(** [tag[key]] for an attribute other than [class], and [tag['class']]. *)
Definition getitem (t : tag) (key : str) : result str :=
  match dict_get key (attrs t) with
  | Some v => Ok v
  | None => Raise (key_error key)
  end.

Definition getitem_class (t : tag) : result (list str) :=
  match class_ t with
  | Some tokens => Ok tokens
  | None => Raise (key_error (lit "class"))
  end.

(** The tags below [t], in document order. *)
Fixpoint descendants (t : tag) : list tag :=
  match t with
  | Tag _ _ _ cs =>
      (fix walk (l : list (content tag)) : list tag :=
         match l with
         | [] => []
         | Child c :: l' => c :: descendants c ++ walk l'
         | _ :: l' => walk l'
         end) cs
  end.

(** [tag.get_text()]: the strings below [t], concatenated. *)
Fixpoint get_text (t : tag) : str :=
  match t with
  | Tag _ _ _ cs =>
      (fix walk (l : list (content tag)) : str :=
         match l with
         | [] => []
         | Child c :: l' => get_text c ++ walk l'
         | NavigableString s :: l' => s ++ walk l'
         | Comment _ :: l' => walk l'
         end) cs
  end.

(** The filter of [find(name, class_=c)]: the tag has that name and, when a
    class is asked for, one of its class tokens is [c]. *)
Definition has_class (c : str) (t : tag) : bool :=
  match class_ t with
  | Some tokens => existsb (str_eqb c) tokens
  | None => false
  end.

Definition matches (nm : str) (cls : option str) (t : tag) : bool :=
  str_eqb nm (name t) &&
  match cls with
  | Some c => has_class c t
  | None => true
  end.

(** [tag.find_all(name, class_=cls)] and [tag.find(name, class_=cls)]. *)
Definition find_all (nm : str) (cls : option str) (t : tag) : list tag :=
  filter (matches nm cls) (descendants t).

Definition find (nm : str) (cls : option str) (t : tag) : option tag :=
  hd_error (find_all nm cls t).

End Bs4.

Import Bs4.

(** ** [datetime] *)

Inductive month : Type :=
| Jan | Feb | Mar | Apr | May | Jun | Jul | Aug | Sep | Oct | Nov | Dec.

Record datetime : Type := {
  year : N;
  month_of : month;
  day : N;
  hour : N;
  minute : N;
  second : N;
  microsecond : N;
  utcoffset : option Z   (* seconds east of UTC, for an aware datetime *)
}.

Definition month_abbr (m : month) : str :=
  match m with
  | Jan => lit "Jan" | Feb => lit "Feb" | Mar => lit "Mar" | Apr => lit "Apr"
  | May => lit "May" | Jun => lit "Jun" | Jul => lit "Jul" | Aug => lit "Aug"
  | Sep => lit "Sep" | Oct => lit "Oct" | Nov => lit "Nov" | Dec => lit "Dec"
  end.

(** [dt.strftime('%d %b %Y')] in the C locale: the day on two digits, the
    abbreviated month name and the year. *)
Definition strftime_d_b_Y (dt : datetime) : str :=
  (if (day dt <? 10)%N then lit "0" else []) ++ decimal (day dt)
  ++ lit " " ++ month_abbr (month_of dt) ++ lit " " ++ decimal (year dt).

(** ** JSON values, as [json.loads] returns them *)

Inductive json : Type :=
| JNull
| JBool (b : bool)
| JInt (n : Z)
| JFloat (x : float)
| JStr (s : str)
| JArr (items : list json)
| JObj (members : list (str * json)).

(** ** The library functions of the environment

    The program calls these functions of BeautifulSoup and of the Python
    standard library; they are not part of the repository and are taken as
    they are. *)
Class PyLib : Type := {
  (** [BeautifulSoup(html, 'html.parser')] *)
  BeautifulSoup : str -> tag;
  (** [json.loads(text)]: the decoded value, or the text [str(e)] of the
      [JSONDecodeError] that it raises on a text that is not valid JSON *)
  json_decode : str -> str + json;
  (** [urllib.parse.urljoin(base, url)] *)
  urljoin : str -> str -> str;
  (** [datetime.fromisoformat(s)]; [None] is a [ValueError] *)
  fromisoformat : str -> option datetime;
  (** [float(s)] for a [str]; [None] is a [ValueError] *)
  float_of_str : str -> option float
}.

(** ** [src/parser/review_parser.py] *)

Record Review : Type := {
  user : str;
  user_image : str;
  review_date : str;
  review_text : str;
  rating : option str;
  likes_count : option Z;
  contains_spoilers : bool
}.

Module ReviewParser.

Section Methods.
Context `{PyLib}.

(** The state of a parser: [self.soup]. *)
Record t : Type := { soup : tag }.

Definition _BASE_URL : str := lit "https://letterboxd.com".

Definition __init__ (html_content : str) : t :=
  {| soup := BeautifulSoup html_content |}.

Definition _extract_user_image (avatar_element : option tag) : str :=
  match avatar_element with
  | None => []
  | Some avatar =>
      match find (lit "img") None avatar with
      | None => []
      | Some img_element =>
          match dict_get (lit "src") (attrs img_element) with
          | None => []
          | Some img_url =>
              if startswith (lit "/") img_url
              then urljoin _BASE_URL img_url
              else img_url
          end
      end
  end.

(** [rated_class[0].split('-')[1]] *)
Definition second_part (token : str) : result str :=
  match nth_error (split HYPHEN token) 1 with
  | Some part => Ok part
  | None => Raise IndexError
  end.

(** The rating read from the star glyphs of the indicator's text. *)
Definition stars_rating (stars_text : str) : result float :=
  let full_stars := count BLACK_STAR stars_text in
  let half_star := contains [ONE_HALF] stars_text in
  int_add_float (Z.of_nat full_stars) (if half_star then float_half else float_zero).

(** [attribution_block] is the result of a [find], which may be [None]:
    calling [.find] on it then raises [AttributeError]. *)
Definition _extract_rating (attribution_block : option tag) : result (option str) :=
  match attribution_block with
  | None => Raise AttributeError
  | Some block =>
      match find (lit "span") (Some (lit "rating")) block with
      | None => Ok None
      | Some rating_span =>
          classes <- getitem_class rating_span ;;
          match filter (startswith (lit "rated-")) classes with
          | token :: _ =>
              part <- second_part token ;;
              n <- int_of_str part ;;
              numeric_rating <- int_truediv_2 n ;;
              Ok (Some (float_repr numeric_rating))
          | [] =>
              let stars_text := strip (get_text rating_span) in
              match stars_text with
              | [] => Ok None
              | _ :: _ =>
                  rating <- stars_rating stars_text ;;
                  Ok (Some (float_repr rating))
              end
          end
      end
  end.

Definition _extract_likes_count (review_block : tag) : result (option Z) :=
  match find (lit "p") (Some (lit "like-link-target")) review_block with
  | Some likes_element =>
      match dict_get (lit "data-count") (attrs likes_element) with
      | Some v => n <- int_of_str v ;; Ok (Some n)
      | None => Ok None
      end
  | None => Ok None
  end.

Definition _clean_review_text (text : str) : str :=
  let text := strip (re_sub_spaces text) in
  replace (lit "<br>") [NEWLINE] text.

Definition _extract_review_date (attribution_block : option tag) : result str :=
  match attribution_block with
  | None => Raise AttributeError
  | Some block =>
      match find (lit "span") (Some (lit "_nobr")) block with
      | Some date_span =>
          let visible := strip (get_text date_span) in
          match find (lit "time") None date_span with
          | Some time_element =>
              match dict_get (lit "datetime") (attrs time_element) with
              | Some v =>
                  match fromisoformat (replace (lit "Z") (lit "+00:00") v) with
                  | Some dt => Ok (strftime_d_b_Y dt)
                  | None => Ok visible
                  end
              | None => Ok visible
              end
          | None => Ok visible
          end
      | None => Ok []
      end
  end.

(** [" ".join(p.get_text() for p in tag.find_all('p'))] *)
Definition paragraphs_text (t : tag) : str :=
  join (lit " ") (map get_text (find_all (lit "p") None t)).

Definition _extract_spoiler_text (body_text : option tag) : str * bool :=
  match body_text with
  | None => ([], false)
  | Some body =>
      match find (lit "p") (Some (lit "contains-spoilers")) body with
      | Some _ =>
          match find (lit "div") (Some (lit "hidden-spoilers")) body with
          | Some hidden_div => (_clean_review_text (paragraphs_text hidden_div), true)
          | None => (_clean_review_text [], true)
          end
      | None => (_clean_review_text (paragraphs_text body), false)
      end
  end.

(** The body of the loop of [extract_reviews] for one review block; [None]
    is the [continue] of a block without content. *)
Definition extract_review (element : tag) : result (option Review) :=
  let avatar := find (lit "a") (Some (lit "avatar")) element in
  user <- match avatar with
          | Some a => href <- getitem a (lit "href") ;; Ok (strip_chars (lit "/") href)
          | None => Ok []
          end ;;
  let user_image := _extract_user_image avatar in
  match find (lit "div") (Some (lit "film-detail-content")) element with
  | None => Ok None
  | Some content_div =>
      let attribution_block :=
        find (lit "div") (Some (lit "attribution-block")) content_div in
      let body_text := find (lit "div") (Some (lit "body-text")) content_div in
      let '(review_text, contains_spoilers) := _extract_spoiler_text body_text in
      review_date <- _extract_review_date attribution_block ;;
      rating <- _extract_rating attribution_block ;;
      likes_count <- _extract_likes_count content_div ;;
      Ok (Some {| user := user;
                  user_image := user_image;
                  review_date := review_date;
                  review_text := review_text;
                  rating := rating;
                  likes_count := likes_count;
                  contains_spoilers := contains_spoilers |})
  end.

(** The loop: [reviews] is the list built so far. *)
Fixpoint extract_reviews_loop (reviews : list Review) (review_elements : list tag)
  : result (list Review) :=
  match review_elements with
  | [] => Ok reviews
  | element :: rest =>
      r <- extract_review element ;;
      match r with
      | None => extract_reviews_loop reviews rest
      | Some review => extract_reviews_loop (reviews ++ [review]) rest
      end
  end.

Definition review_elements (self : t) : list tag :=
  find_all (lit "li") (Some (lit "film-detail")) (soup self).

Definition extract_reviews (self : t) : result (list Review) :=
  extract_reviews_loop [] (review_elements self).

End Methods.

End ReviewParser.

(** ** [src/parser/wheretowatch_parser.py] *)

(** The fields of a [StreamingService] hold whatever the JSON entry holds
    under their key: the dataclass does not check their type. *)
Record StreamingService : Type := {
  name : json;
  icon : json;
  locale : json;
  viewUrl : json;
  format : json;
  type : json;
  price : option float;
  currency : json
}.

(** The operations of the interpreter on a decoded value. *)
Module PyObj.

(** [bool(v)] *)
Definition truthy (v : json) : bool :=
  match v with
  | JNull => false
  | JBool b => b
  | JInt n => negb (n =? 0)%Z
  | JFloat x => float_truthy x
  | JStr s => match s with [] => false | _ => true end
  | JArr items => match items with [] => false | _ => true end
  | JObj members => match members with [] => false | _ => true end
  end.

(** [obj.get(key, default)]: only a [dict] has the method. *)
Definition get (obj : json) (key : str) (default : json) : result json :=
  match obj with
  | JObj members =>
      Ok (match dict_get key members with Some v => v | None => default end)
  | _ => Raise AttributeError
  end.

(** [obj[key]] for a [str] key. *)
Definition getitem (obj : json) (key : str) : result json :=
  match obj with
  | JObj members =>
      match dict_get key members with
      | Some v => Ok v
      | None => Raise (key_error key)
      end
  | _ => Raise TypeError
  end.

(** [key in obj] for a [str] key. *)
Definition contains (key : str) (obj : json) : result bool :=
  match obj with
  | JObj members => Ok (dict_contains key members)
  | JArr items =>
      Ok (existsb (fun v => match v with JStr s => str_eqb key s | _ => false end) items)
  | JStr s => Ok (Py.contains key s)
  | _ => Raise TypeError
  end.

(** The elements that [for x in obj] goes through. *)
Definition iterate (obj : json) : result (list json) :=
  match obj with
  | JArr items => Ok items
  | JObj members => Ok (map (fun kv => JStr (fst kv)) members)
  | JStr s => Ok (map (fun c => JStr [c]) s)
  | _ => Raise TypeError
  end.

Section Float.
Context `{PyLib}.

(** [float(v)] *)
Definition to_float (v : json) : result float :=
  match v with
  | JBool b => Ok (if b then float_one else float_zero)
  | JInt n => float_of_int n
  | JFloat x => Ok x
  | JStr s =>
      match float_of_str s with
      | Some x => Ok x
      | None => Raise (ValueError None None)
      end
  | _ => Raise TypeError
  end.

End Float.

End PyObj.

Module WhereToWatchParser.

Section Methods.
Context `{PyLib}.

(** The state of a parser: [self._content]. *)
Record t : Type := { _content : str }.

Definition __init__ (json_content : str) : t := {| _content := json_content |}.

(** [json.loads(text)] *)
Definition json_loads (text : str) : result json :=
  match json_decode text with
  | inl msg => Raise (JSONDecodeError msg)
  | inr v => Ok v
  end.

Definition _parse_service (service_data : json) : result StreamingService :=
  name <- PyObj.get service_data (lit "name") (JStr []) ;;
  icon <- PyObj.get service_data (lit "icon") (JStr []) ;;
  locale <- PyObj.get service_data (lit "locale") (JStr []) ;;
  viewUrl <- PyObj.get service_data (lit "viewUrl") (JStr []) ;;
  format <- PyObj.get service_data (lit "format") (JStr []) ;;
  type <- PyObj.get service_data (lit "type") (JStr []) ;;
  p <- PyObj.get service_data (lit "price") JNull ;;
  price <- (if PyObj.truthy p
            then v <- PyObj.getitem service_data (lit "price") ;;
                 x <- PyObj.to_float v ;;
                 Ok (Some x)
            else Ok None) ;;
  currency <- PyObj.get service_data (lit "currency") (JStr []) ;;
  Ok {| name := name; icon := icon; locale := locale; viewUrl := viewUrl;
        format := format; type := type; price := price; currency := currency |}.

(** [result[key] = value] *)
Fixpoint dict_set {V : Type} (key : str) (value : V) (d : list (str * V))
  : list (str * V) :=
  match d with
  | [] => [(key, value)]
  | (k, v) :: d' =>
      if str_eqb key k then (k, value) :: d' else (k, v) :: dict_set key value d'
  end.

Definition categories : list str := [lit "stream"; lit "rent"; lit "buy"].

(** The loop over the categories: [result] is the mapping built so far. *)
Fixpoint get_services_loop (best_data : json)
    (result : list (str * list StreamingService)) (cats : list str)
  : Py.result (list (str * list StreamingService)) :=
  match cats with
  | [] => Ok result
  | category :: rest =>
      present <- PyObj.contains category best_data ;;
      if present : bool
      then
        entries <- PyObj.getitem best_data category ;;
        items <- PyObj.iterate entries ;;
        services <- traverse _parse_service items ;;
        get_services_loop best_data (dict_set category services result) rest
      else get_services_loop best_data result rest
  end.

(** The body of the [try] statement. *)
Definition get_services_try (self : t)
  : result (list (str * list StreamingService)) :=
  data <- json_loads (_content self) ;;
  best_data <- PyObj.get data (lit "best") (JObj []) ;;
  get_services_loop best_data [] categories.

Definition parse_error_prefix : str := lit "Could not parse streaming services data: ".

(** [except (json.JSONDecodeError, KeyError) as e: raise ValueError(...)] *)
Definition get_services (self : t)
  : result (list (str * list StreamingService)) :=
  match get_services_try self with
  | Raise (JSONDecodeError msg as e)
  | Raise (KeyError msg as e) =>
      Raise (ValueError (Some (parse_error_prefix ++ msg)) (Some e))
  | r => r
  end.

End Methods.

End WhereToWatchParser.

(** ** Sample inputs

    A stand-in for the library functions, defined on the few texts that the
    examples below use, and some review blocks and payloads.  The decoder
    takes every other text as one that does not start with a JSON value;
    [sample_urljoin] agrees with [urljoin] for a base without a path and an
    absolute path without dot segments, query or fragment. *)
Module Samples.

(** A tag written with ASCII literals; no class token means no [class]
    attribute. *)
Definition el (nm : string) (classes : list string)
    (attributes : list (string * string)) (cs : list (content tag)) : tag :=
  Tag (lit nm)
      (match classes with [] => None | _ => Some (map lit classes) end)
      (map (fun kv => (lit (fst kv), lit (snd kv))) attributes)
      cs.

Definition txt (s : string) : content tag := NavigableString (lit s).

Definition document (cs : list (content tag)) : ReviewParser.t :=
  {| ReviewParser.soup := Tag (lit "[document]") None [] cs |}.

(** A JSON text written with apostrophes in place of the quotation marks. *)
Definition jlit (s : string) : str :=
  map (fun c => if (c =? 0x27)%N then 0x22%N else c) (lit s).

Definition rent_free : json :=
  JObj [(lit "best",
         JObj [(lit "rent",
                JArr [JObj [(lit "name", JStr (lit "N")); (lit "price", JInt 0)]])])].

Definition rent_negative : json :=
  JObj [(lit "best", JObj [(lit "rent", JArr [JObj [(lit "price", JInt (-1))]])])].

Definition stream_and_buy_best : list (str * json) :=
  [(lit "buy",
    JArr [JObj [(lit "name", JStr (lit "B1")); (lit "price", JInt 3)];
          JObj [(lit "name", JStr (lit "B2"))]]);
   (lit "stream", JArr [JObj [(lit "name", JStr (lit "S"))]]);
   (lit "other", JInt 1)].

Definition stream_and_buy : json :=
  JObj [(lit "best", JObj stream_and_buy_best)].

Definition rent_free_text : str := jlit "{'best':{'rent':[{'name':'N','price':0}]}}".

Definition stream_and_buy_text : str :=
  jlit "{'best':{'buy':[{'name':'B1','price':3},{'name':'B2'}],'stream':[{'name':'S'}],'other':1}}".

Definition rent_negative_text : str := jlit "{'best':{'rent':[{'price':-1}]}}".

Definition sample_json_decode (text : str) : str + json :=
  if str_eqb text rent_free_text then inr rent_free
  else if str_eqb text rent_negative_text then inr rent_negative
  else if str_eqb text stream_and_buy_text then inr stream_and_buy
  else if str_eqb text (lit "{}") then inr (JObj [])
  else if str_eqb text (lit "[]") then inr (JArr [])
  else inl (lit "Expecting value: line 1 column 1 (char 0)").

Definition sample_urljoin (base url : str) : str := base ++ url.

Definition sample_fromisoformat (s : str) : option datetime :=
  if str_eqb s (lit "2024-01-05T10:00:00+00:00")
  then Some {| year := 2024; month_of := Jan; day := 5; hour := 10; minute := 0;
               second := 0; microsecond := 0; utcoffset := Some 0%Z |}
  else None.

#[export] Instance sample_lib : PyLib := {|
  BeautifulSoup := fun _ => Tag (lit "[document]") None [] [];
  json_decode := sample_json_decode;
  urljoin := sample_urljoin;
  fromisoformat := sample_fromisoformat;
  float_of_str := fun _ => None
|}.

Local Open Scope string_scope.

(** Three star glyphs and a half. *)
Definition three_and_a_half_stars : content tag :=
  NavigableString [BLACK_STAR; BLACK_STAR; BLACK_STAR; ONE_HALF].

Definition attribution (rating_classes : list string) (stars : list (content tag))
    (when : list (content tag)) : content tag :=
  Child (el "div" ["attribution-block"] []
           [Child (el "span" ("rating" :: rating_classes) [] stars);
            Child (el "span" ["_nobr"] [] when)]).

Definition avatar_link (src : string) : content tag :=
  Child (el "a" ["avatar"] [("href", "/alice/")]
           [Child (el "img" [] [("src", src)] [])]).

Definition block (link : list (content tag)) (inside : list (content tag)) : tag :=
  el "li" ["film-detail"] []
     (link ++ [Child (el "div" ["film-detail-content"] [] inside)])%list.

(** A complete review. *)
Definition plain_block : tag :=
  block [avatar_link "/avatar/abc.jpg"]
    [attribution ["rated-7"] [three_and_a_half_stars]
       [Child (el "time" [] [("datetime", "2024-01-05T10:00:00Z")] [txt "5 Jan"])];
     Child (el "div" ["body-text"] []
              [Child (el "p" [] [] [txt "  Great   film. "]);
               Child (el "p" [] [] [txt "Loved it"])]);
     Child (el "p" ["like-link-target"] [("data-count", "12")] [])].

(** A review with a spoiler warning, a visible paragraph and a hidden
    section. *)
Definition spoiler_block : tag :=
  block [avatar_link "https://a.ltrbxd.com/abc.jpg"]
    [attribution [] [three_and_a_half_stars] [txt " 07 Feb 2023 "];
     Child (el "div" ["body-text"] []
              [Child (el "p" ["contains-spoilers"] [] [txt "Spoilers ahead."]);
               Child (el "p" [] [] [txt "visible"]);
               Child (el "div" ["hidden-spoilers"] []
                        [Child (el "p" [] [] [txt "He  dies."]);
                         Child (el "p" [] [] [txt "a<br>b"])])])].

(** A spoiler warning without a hidden section. *)
Definition warning_only_block : tag :=
  block []
    [attribution [] [] [];
     Child (el "div" ["body-text"] []
              [Child (el "p" ["contains-spoilers"] [] [txt "Spoilers ahead."]);
               Child (el "p" [] [] [txt "visible"])])].

(** A block whose content has no attribution block. *)
Definition bare_block : tag := block [] [].

(** A rating beyond five stars. *)
Definition six_stars_block : tag :=
  block [] [attribution ["rated-12"] [] []].

(** The service of an entry that only has a name. *)
Definition named_service (n : string) (p : option float) : StreamingService :=
  {| name := JStr (lit n); icon := JStr []; locale := JStr []; viewUrl := JStr [];
     format := JStr []; type := JStr []; price := p; currency := JStr [] |}.

(** The float [-1.0], that is -(2^52 * 2^-52). *)
Definition float_minus_one : float := S754_finite true (2 ^ 52)%positive (-52).

(** The float [3.0], that is 3 * 2^51 * 2^-51. *)
Definition float_three : float := S754_finite false (3 * 2 ^ 51)%positive (-51).

(** The reviews that the parser makes of the blocks above. *)
Definition plain_review : Review :=
  {| user := lit "alice";
     user_image := lit "https://letterboxd.com/avatar/abc.jpg";
     review_date := lit "05 Jan 2024";
     review_text := lit "Great film. Loved it";
     rating := Some (lit "3.5");
     likes_count := Some 12%Z;
     contains_spoilers := false |}.

Definition spoiler_review : Review :=
  {| user := lit "alice";
     user_image := lit "https://a.ltrbxd.com/abc.jpg";
     review_date := lit "07 Feb 2023";
     review_text := (lit "He dies. a" ++ [NEWLINE] ++ lit "b")%list;
     rating := Some (lit "3.5");
     likes_count := None;
     contains_spoilers := true |}.

Definition warning_only_review : Review :=
  {| user := []; user_image := []; review_date := []; review_text := [];
     rating := None; likes_count := None; contains_spoilers := true |}.

Definition six_stars_review : Review :=
  {| user := []; user_image := []; review_date := []; review_text := [];
     rating := Some (lit "6.0"); likes_count := None; contains_spoilers := false |}.

End Samples.

(** ** The elements that the parser looks for *)

Module Select.

(** [element.find('a', class_='avatar')] *)
Definition avatar_of (element : tag) : option tag :=
  find (lit "a") (Some (lit "avatar")) element.

(** [element.find('div', class_='film-detail-content')] *)
Definition content_of (element : tag) : option tag :=
  find (lit "div") (Some (lit "film-detail-content")) element.

(** [content_div.find('div', class_='attribution-block')] *)
Definition attribution_of (content_div : tag) : option tag :=
  find (lit "div") (Some (lit "attribution-block")) content_div.

(** [content_div.find('div', class_='body-text')] *)
Definition body_of (content_div : tag) : option tag :=
  find (lit "div") (Some (lit "body-text")) content_div.

(** The rating indicator: [attribution_block.find('span', class_='rating')] *)
Definition rating_indicator_of (block : tag) : option tag :=
  find (lit "span") (Some (lit "rating")) block.

(** The class tokens of the indicator that start with [rated-]. *)
Definition rated_tokens (rating_span : tag) : list str :=
  match class_ rating_span with
  | Some classes => filter (startswith (lit "rated-")) classes
  | None => []
  end.

(** The date container: [attribution_block.find('span', class_='_nobr')] *)
Definition date_container_of (block : tag) : option tag :=
  find (lit "span") (Some (lit "_nobr")) block.

(** The machine-readable timestamp of a date container: the [datetime]
    attribute of its [time] element. *)
Definition timestamp_of (date_span : tag) : option str :=
  match find (lit "time") None date_span with
  | Some time_element => dict_get (lit "datetime") (attrs time_element)
  | None => None
  end.

(** The spoiler marker: [body_text.find('p', class_='contains-spoilers')] *)
Definition spoiler_marker_of (body : tag) : option tag :=
  find (lit "p") (Some (lit "contains-spoilers")) body.

(** The hidden section: [body_text.find('div', class_='hidden-spoilers')] *)
Definition hidden_section_of (body : tag) : option tag :=
  find (lit "div") (Some (lit "hidden-spoilers")) body.

(** The [src] of the image inside a profile link. *)
Definition image_src_of (avatar : tag) : option str :=
  match find (lit "img") None avatar with
  | Some img_element => dict_get (lit "src") (attrs img_element)
  | None => None
  end.

End Select.

(** ** The notions of the statements *)

Module Notions.

(** An absolute URL starts with a scheme: a letter, then letters, digits,
    [+], [-] or [.], up to a colon. *)
Definition is_alpha (c : char) : bool :=
  ((0x41 <=? c) && (c <=? 0x5A) || (0x61 <=? c) && (c <=? 0x7A))%N.

Fixpoint scheme_tail (s : str) : bool :=
  match s with
  | [] => false
  | c :: s' =>
      (c =? 0x3A)%N
      || (is_alpha c || is_digit c || (c =? 0x2B)%N || (c =? 0x2D)%N || (c =? 0x2E)%N)
         && scheme_tail s'
  end.

Definition is_absolute_url (s : str) : bool :=
  match s with
  | c :: s' => is_alpha c && scheme_tail s'
  | [] => false
  end.

(** A text with its runs of white space collapsed to single spaces, and
    trimmed. *)
Definition collapse_and_trim (text : str) : str := strip (re_sub_spaces text).

(** The exceptions of the built-in operations, which the handler of
    [get_services] lets through. *)
Definition passes_handler (e : exn) : Prop :=
  match e with
  | JSONDecodeError _ | KeyError _ => False
  | ValueError msg context => msg = None /\ context = None
  | _ => True
  end.

(** [m * 2^e] is a multiple of [2^g]. *)
Definition multiple (g m e : Z) : Prop := (g <= e \/ (2 ^ (g - e) | m))%Z.

(** While the exponent of a mantissa that is shifted to the right is below
    [g], no bit has been shifted out. *)
Definition exact_below (g : Z) (mrs : shr_record) (e : Z) : Prop :=
  (0 <= shr_m mrs)%Z /\
  ((g <= e)%Z \/
   (shr_r mrs = false /\ shr_s mrs = false /\ (2 ^ (g - e) | shr_m mrs)%Z)).

(** The outcome of a rounding that starts from a multiple of [2^g] of sign
    [sx]. *)
Definition rounded_multiple (g : Z) (sx : bool) (x : spec_float) : Prop :=
  match x with
  | S754_zero s | S754_infinity s => s = sx
  | S754_nan => False
  | S754_finite s m e => s = sx /\ multiple g (Zpos m) e
  end.

(** [x] is a multiple of one half: zero, or [m * 2^e] with [2 * m * 2^e] an
    integer. *)
Definition is_half_multiple (x : float) : bool :=
  match x with
  | S754_zero _ => true
  | S754_finite _ m e => ((-1 <=? e) || (Zpos m mod 2 ^ (-1 - e) =? 0))%Z
  | _ => false
  end.

(** [0.0 <= x] *)
Definition float_nonneg (x : float) : bool := SFleb float_zero x.

(** The ratings from no star to five stars, in steps of half a star. *)
Definition valid_ratings : list str :=
  map lit ["0.0"; "0.5"; "1.0"; "1.5"; "2.0"; "2.5"; "3.0"; "3.5"; "4.0"; "4.5";
           "5.0"]%string.

End Notions.

Import Select.
Import Notions.
Import ReviewParser.
Import WhereToWatchParser.
Import Samples.

(** ** Notions of the further properties *)

Module Shapes.

(** What a block adds to the list of reviews. *)
Definition kept (o : option Review) : list Review :=
  match o with
  | Some review => [review]
  | None => []
  end.

(** [review_block.find('p', class_='like-link-target')] *)
Definition likes_element_of (review_block : tag) : option tag :=
  find (lit "p") (Some (lit "like-link-target")) review_block.

(** No two white-space characters are next to each other. *)
Fixpoint single_spaced (s : str) : bool :=
  match s with
  | c :: s' =>
      match s' with
      | d :: _ => negb (isspace c && isspace d) && single_spaced s'
      | [] => true
      end
  | [] => true
  end.

(** [s.endswith(suffix)] *)
Definition endswith (suffix s : str) : bool := startswith (rev suffix) (rev s).

(** An ASCII character that no [int] literal holds: not a digit, an
    underscore, a sign or white space. *)
Definition not_in_int_literal (c : char) : bool :=
  (c <? 0x80)%N && negb (is_digit c) && negb (char_eqb c UNDERSCORE)
  && negb (char_eqb c PLUS) && negb (char_eqb c HYPHEN) && negb (isspace c).

(** The keys of an entry that [_parse_service] reads. *)
Definition service_keys : list str :=
  [lit "name"; lit "icon"; lit "locale"; lit "viewUrl"; lit "format"; lit "type";
   lit "price"; lit "currency"].

(** [entry.get(key, '')] on the members of an entry. *)
Definition member_or_empty (key : str) (members : list (str * json)) : json :=
  match dict_get key members with
  | Some v => v
  | None => JStr []
  end.

(** [category in best_data] holds for one of the categories, when
    [best_data] is a list or a string. *)
Definition names_a_category (best_data : json) : bool :=
  existsb (fun category =>
             match PyObj.contains category best_data with
             | Ok present => present
             | Raise _ => false
             end) categories.

(** An entry that [_parse_service] accepts: an object whose price is absent,
    falsy, or converts to a float. *)
Definition acceptable_entry `{PyLib} (entry : json) : Prop :=
  exists members,
    entry = JObj members /\
    match dict_get (lit "price") members with
    | Some p => PyObj.truthy p = true -> exists x, PyObj.to_float p = Ok x
    | None => True
    end.

End Shapes.

Import Shapes.

(** ** More sample inputs *)
Module Cases.

Local Open Scope string_scope.

(** A matched element without content, which the loop skips. *)
Definition empty_block : tag := el "li" ["film-detail"] [] [].

Definition three_blocks : ReviewParser.t :=
  document [Child plain_block; Child empty_block; Child spoiler_block].

Definition failing_blocks : ReviewParser.t :=
  document [Child plain_block; Child bare_block; Child spoiler_block].

(** The profile link of [plain_block], and one without an address. *)
Definition alice_link : tag :=
  el "a" ["avatar"] [("href", "/alice/")]
     [Child (el "img" [] [("src", "/avatar/abc.jpg")] [])].

Definition unlinked_avatar : tag := el "a" ["avatar"] [] [].

Definition unlinked_block : tag := el "li" ["film-detail"] [] [Child unlinked_avatar].

(** The element that holds the count of likes, and a block around it. *)
Definition likes (count : string) : tag :=
  el "p" ["like-link-target"] [("data-count", count)] [].

Definition liked (count : string) : tag :=
  el "div" ["film-detail-content"] [] [Child (likes count)].

Definition padded_text : str := lit "  Great   film. ".

End Cases.

Import Cases.

Module RatedCases.
Local Open Scope string_scope.

(** An attribution block whose rating indicator has the class token
    [token]. *)
Definition rated (token : string) : tag :=
  el "div" ["attribution-block"] [] [Child (el "span" ["rating"; token] [] [])].

End RatedCases.

Import RatedCases.

(** ** [src/scraping]: the two scrapers

    The scrapers keep what they have looked up in their fields and talk to
    the site through [requests.get].  The network is a state of its own, of
    an unknown type: a request takes a world to the answer and the next
    world, so that a call that leaves the world as it was has made no
    request. *)
Module Requests.

(** A value of the [params] dictionary. *)
Inductive param : Type :=
| IntParam (n : Z)
| StrParam (s : str).

(** The arguments of [requests.get(url, params=..., allow_redirects=...)];
    redirects are followed unless the caller says otherwise. *)
Record request : Type := {
  url : str;
  params : list (str * param);
  allow_redirects : bool
}.

(** What the program reads of a response: [status_code],
    [headers.get('location')], [text], and what [json()] returns, which is
    the decoded body or the text of the decoding error. *)
Record response : Type := {
  status_code : Z;
  location : option str;
  text : str;
  json_body : str + json
}.

Class Network : Type := {
  world : Type;
  (** [requests.get]: a response, or the text of the [RequestException] *)
  requests_get : request -> world -> (str + response) * world
}.

(** What a method of a scraper raises. *)
Inductive failure : Type :=
| Builtin (e : exn)
| RequestException (detail : str)
| HTTPError (status : Z)
  (** [ValueError(f"Expected 302 redirect, got {status}")] *)
| ExpectedRedirect (status : Z)
  (** [ValueError("Location header not found in response")] *)
| LocationNotFound
  (** [ValueError(f"Could not extract Letterboxd ID: {str(e)}")], raised while
      [e] is handled *)
| IdNotExtracted (e : failure).

Inductive outcome (A : Type) : Type :=
| Returned (a : A)
| Raised (f : failure).
Arguments Returned {A} a.
Arguments Raised {A} f.

Section Monad.
Context {net : Network}.

(** A method of an object of state [S]: it reads and writes the fields and
    the world, and returns or raises.  What it wrote before it raised
    stays written. *)
Definition method (S A : Type) : Type := S -> world -> outcome A * S * world.

Definition ret {S A} (a : A) : method S A := fun self w => (Returned a, self, w).

Definition raise {S A} (f : failure) : method S A := fun self w => (Raised f, self, w).

Definition then_ {S A B} (m : method S A) (k : A -> method S B) : method S B :=
  fun self w =>
    match m self w with
    | (Returned a, self', w') => k a self' w'
    | (Raised f, self', w') => (Raised f, self', w')
    end.

Definition read {S} : method S S := fun self w => (Returned self, self, w).

(** An assignment to a field. *)
Definition update {S} (f : S -> S) : method S unit :=
  fun self w => (Returned tt, f self, w).

(** [requests.get(...)] *)
Definition get {S} (r : request) : method S response :=
  fun self w =>
    match requests_get r w with
    | (inl detail, w') => (Raised (RequestException detail), self, w')
    | (inr resp, w') => (Returned resp, self, w')
    end.

(** [response.raise_for_status()] *)
Definition raise_for_status {S} (resp : response) : method S unit :=
  if ((400 <=? status_code resp) && (status_code resp <? 600))%Z
  then raise (HTTPError (status_code resp))
  else ret tt.

End Monad.

End Requests.

Import Requests.

Notation "x <<- m ;; k" := (then_ m (fun x => k))
  (at level 61, m at next level, right associativity) : py_scope.

(** [s.rstrip(chars)] *)
Definition rstrip_chars (chars s : str) : str :=
  rstrip_by (fun c => existsb (char_eqb c) chars) s.

(** [bool(s)] for an optional string: [None] and the empty string are
    false. *)
Definition truthy_str (s : option str) : bool :=
  match s with
  | Some (_ :: _) => true
  | _ => false
  end.

Module MovieScraper.

Section Methods.
Context {lib : PyLib} {net : Network}.

Record t : Type := { _imdb_id : str; _movie_path : option str }.

Definition _BASE_URL : str := lit "https://letterboxd.com".
Definition _IMDB_PATH : str := lit "imdb".

Definition __init__ (imdb_id : str) : t :=
  {| _imdb_id := imdb_id; _movie_path := None |}.

(** The property [imdb_id], its setter, and the property [movie_path]. *)
Definition imdb_id (self : t) : str := _imdb_id self.

Definition set_imdb_id (self : t) (value : str) : t :=
  {| _imdb_id := value; _movie_path := None |}.

Definition movie_path (self : t) : option str := _movie_path self.

(** The request of [_get_movie_path]. *)
Definition redirect_request (imdb_id : str) : request :=
  {| url := urljoin _BASE_URL (_IMDB_PATH ++ lit "/" ++ imdb_id ++ lit "/");
     params := [];
     allow_redirects := false |}.

Definition _get_movie_path : method t str :=
  self <<- read ;;
  resp <<- get (redirect_request (_imdb_id self)) ;;
  if negb (status_code resp =? 302)%Z
  then raise (ExpectedRedirect (status_code resp))
  else
    if truthy_str (location resp)
    then match location resp with
         | Some loc => ret loc
         | None => raise LocationNotFound
         end
    else raise LocationNotFound.

Definition with_movie_path (self : t) (path : str) : t :=
  {| _imdb_id := _imdb_id self; _movie_path := Some path |}.

Definition get_reviews_url : method t str :=
  self <<- read ;;
  _ <<- (if negb (truthy_str (_movie_path self))
         then path <<- _get_movie_path ;;
              update (fun self => with_movie_path self path)
         else ret tt) ;;
  self <<- read ;;
  match _movie_path self with
  | Some path =>
      let reviews_path := rstrip_chars (lit "/") path ++ lit "/reviews/by/activity/" in
      ret (urljoin _BASE_URL reviews_path)
  | None => raise (Builtin AttributeError)
  end.

Definition get_reviews_html : method t str :=
  reviews_url <<- get_reviews_url ;;
  resp <<- get {| url := reviews_url; params := []; allow_redirects := true |} ;;
  _ <<- raise_for_status resp ;;
  ret (text resp).

End Methods.

End MovieScraper.

Module WhereToWatchScraper.

Section Methods.
Context {lib : PyLib} {net : Network}.

Record t : Type := {
  _imdb_id : str;
  _country : str;
  _movie_path : option str;
  _letterboxd_id : option Z
}.

Definition _BASE_URL : str := lit "https://letterboxd.com".
Definition _IMDB_PATH : str := lit "imdb".

Definition __init__ (imdb_id country : str) : t :=
  {| _imdb_id := imdb_id; _country := country;
     _movie_path := None; _letterboxd_id := None |}.

Definition imdb_id (self : t) : str := _imdb_id self.

Definition set_imdb_id (self : t) (value : str) : t :=
  {| _imdb_id := value; _country := _country self;
     _movie_path := None; _letterboxd_id := None |}.

Definition redirect_request (imdb_id : str) : request :=
  {| url := urljoin _BASE_URL (_IMDB_PATH ++ lit "/" ++ imdb_id ++ lit "/");
     params := [];
     allow_redirects := false |}.

Definition _get_movie_path : method t str :=
  self <<- read ;;
  resp <<- get (redirect_request (_imdb_id self)) ;;
  if negb (status_code resp =? 302)%Z
  then raise (ExpectedRedirect (status_code resp))
  else
    if truthy_str (location resp)
    then match location resp with
         | Some loc => ret (rstrip_chars (lit "/") loc)
         | None => raise LocationNotFound
         end
    else raise LocationNotFound.

(** [int(v)] for a decoded value: a float is truncated towards zero. *)
Definition int_of_json (v : json) : outcome Z :=
  match v with
  | JInt n => Returned n
  | JBool b => Returned (if b then 1 else 0)%Z
  | JFloat (S754_zero _) => Returned 0%Z
  | JFloat (S754_finite s m e) =>
      Returned (cond_Zopp s (Z.shiftl (Zpos m) e))
  | JFloat (S754_infinity _) => Raised (Builtin OverflowError)
  | JFloat S754_nan => Raised (Builtin (ValueError None None))
  | JStr s =>
      match int_of_str s with
      | Ok n => Returned n
      | Raise e => Raised (Builtin e)
      end
  | _ => Raised (Builtin TypeError)
  end.

(** The body of the [try] statement of [_get_letterboxd_id]. *)
Definition read_id (resp : response) : outcome Z :=
  match json_body resp with
  | inl msg => Raised (Builtin (JSONDecodeError msg))
  | inr data =>
      match PyObj.get data (lit "id") JNull with
      | Ok v => int_of_json v
      | Raise e => Raised (Builtin e)
      end
  end.

(** [except (ValueError, KeyError) as e]: a [JSONDecodeError] is a
    [ValueError]. *)
Definition caught (f : failure) : bool :=
  match f with
  | Builtin (ValueError _ _) | Builtin (JSONDecodeError _) | Builtin (KeyError _) => true
  | ExpectedRedirect _ | LocationNotFound | IdNotExtracted _ => true
  | _ => false
  end.

Definition with_movie_path (self : t) (path : str) : t :=
  {| _imdb_id := _imdb_id self; _country := _country self;
     _movie_path := Some path; _letterboxd_id := _letterboxd_id self |}.

Definition with_letterboxd_id (self : t) (id : Z) : t :=
  {| _imdb_id := _imdb_id self; _country := _country self;
     _movie_path := _movie_path self; _letterboxd_id := Some id |}.

(** [f"{self._movie_path}/json/"]: an optional string is written as it is,
    or [None]. *)
Definition json_request (path : option str) : request :=
  let written := match path with Some p => p | None => lit "None" end in
  {| url := urljoin _BASE_URL (written ++ lit "/json/");
     params := [];
     allow_redirects := true |}.

Definition _get_letterboxd_id : method t Z :=
  self <<- read ;;
  _ <<- (if negb (truthy_str (_movie_path self))
         then path <<- _get_movie_path ;;
              update (fun self => with_movie_path self path)
         else ret tt) ;;
  self <<- read ;;
  resp <<- get (json_request (_movie_path self)) ;;
  _ <<- raise_for_status resp ;;
  match read_id resp with
  | Returned id => ret id
  | Raised f => if caught f then raise (IdNotExtracted f) else raise f
  end.

(** [bool(n)] for an optional integer: [None] and zero are false. *)
Definition truthy_int (n : option Z) : bool :=
  match n with
  | Some n => negb (n =? 0)%Z
  | None => false
  end.

(** [requests] leaves out a parameter whose value is [None]. *)
Definition availability_request (id : option Z) (country : str) : request :=
  {| url := _BASE_URL ++ lit "/s/film-availability";
     params := match id with
               | Some n => [(lit "filmId", IntParam n)]
               | None => []
               end ++ [(lit "locale", StrParam country)];
     allow_redirects := true |}.

Definition get_services_json : method t str :=
  self <<- read ;;
  _ <<- (if negb (truthy_int (_letterboxd_id self))
         then id <<- _get_letterboxd_id ;;
              update (fun self => with_letterboxd_id self id)
         else ret tt) ;;
  self <<- read ;;
  resp <<- get (availability_request (_letterboxd_id self) (_country self)) ;;
  _ <<- raise_for_status resp ;;
  ret (text resp).

End Methods.

End WhereToWatchScraper.

(** ** What a request amounts to *)
Module Traffic.

Section Defs.
Context {lib : PyLib} {net : Network}.

(** One request read the way the methods read it: a status from 400 to 599
    raises, any other status gives the text of the response. *)
Definition fetched_text (r : request) (w : world) : outcome str * world :=
  match requests_get r w with
  | (inl detail, w') => (Raised (RequestException detail), w')
  | (inr resp, w') =>
      (if ((400 <=? status_code resp) && (status_code resp <? 600))%Z
       then Raised (HTTPError (status_code resp))
       else Returned (text resp), w')
  end.

(** The request for the page of reviews. *)
Definition page_request (reviews_url : str) : request :=
  {| url := reviews_url; params := []; allow_redirects := true |}.

(** The second half of [_get_letterboxd_id]: the request for the film's
    JSON, and the id read from the answer. *)
Definition requested_id (path : option str) (w : world) : outcome Z * world :=
  match requests_get (WhereToWatchScraper.json_request path) w with
  | (inl detail, w') => (Raised (RequestException detail), w')
  | (inr resp, w') =>
      (if ((400 <=? status_code resp) && (status_code resp <? 600))%Z
       then Raised (HTTPError (status_code resp))
       else match WhereToWatchScraper.read_id resp with
            | Returned id => Returned id
            | Raised f =>
                Raised (if WhereToWatchScraper.caught f then IdNotExtracted f else f)
            end, w')
  end.

(** A scraper whose id is not known. *)
Definition without_letterboxd_id (self : WhereToWatchScraper.t) : WhereToWatchScraper.t :=
  {| WhereToWatchScraper._imdb_id := WhereToWatchScraper._imdb_id self;
     WhereToWatchScraper._country := WhereToWatchScraper._country self;
     WhereToWatchScraper._movie_path := WhereToWatchScraper._movie_path self;
     WhereToWatchScraper._letterboxd_id := None |}.

End Defs.

End Traffic.

Import Traffic.

(** ** A sample site

    A stand-in for the network, defined on the few requests that the
    examples of the scrapers make: the world is the list of the requests made
    so far, the latest first.  [site_urljoin] agrees with [urljoin] for a
    base without a path and a reference that is a path without dot segments,
    query or fragment. *)
Module Site.

Local Open Scope string_scope.

Definition site_urljoin (base url : str) : str :=
  match url with
  | [] => base
  | c :: _ => if char_eqb c SLASH then base ++ url else base ++ lit "/" ++ url
  end%list.

Definition site_lib : PyLib := {|
  BeautifulSoup := fun _ => Tag (lit "[document]") None [] [];
  json_decode := sample_json_decode;
  urljoin := site_urljoin;
  fromisoformat := sample_fromisoformat;
  float_of_str := fun _ => None
|}.

Definition answer (status : Z) (loc : option str) (body : str)
    (decoded : str + json) : str + response :=
  inr {| status_code := status; location := loc; text := body; json_body := decoded |}.

Definition not_json : str + json :=
  inl (lit "Expecting value: line 1 column 1 (char 0)").

(** The film's JSON, which holds its id. *)
Definition film_response : response :=
  {| status_code := 200; location := None; text := jlit "{'id':51994}";
     json_body := inr (JObj [(lit "id", JInt 51994)]) |}.

Definition site_answer (r : request) : str + response :=
  let asks (u : string) := str_eqb (url r) (lit u) in
  if asks "https://letterboxd.com/imdb/tt0113277/"
  then answer 302 (Some (lit "/film/heat-1995/")) [] not_json
  else if asks "https://letterboxd.com/film/heat-1995/reviews/by/activity/"
  then answer 200 None (lit "<html></html>") not_json
  else if asks "https://letterboxd.com/film/heat-1995/json/"
  then inr film_response
  else if asks "https://letterboxd.com/s/film-availability"
  then answer 200 None rent_free_text (inr rent_free)
  else if asks "https://letterboxd.com/imdb/tt0000000/"
  then answer 404 None (lit "Not Found") not_json
  else if asks "https://letterboxd.com/imdb/tt0000001/"
  then answer 302 (Some (lit "/")) [] not_json
  else if asks "https://letterboxd.com/imdb/tt0000002/"
  then answer 302 (Some (lit "/film/untitled/")) [] not_json
  else if asks "https://letterboxd.com/film/untitled/json/"
  then answer 200 None (lit "<html></html>") not_json
  else inl (lit "connection refused").

#[export] Instance site : Network := {|
  world := list request;
  requests_get := fun r w => (site_answer r, r :: w)
|}.

(** The world in which these requests have been made, the latest first. *)
Definition asked (requests : list request) : world := requests.

(** Scrapers for a film of the site, new and after their first call. *)
Definition heat : MovieScraper.t := MovieScraper.__init__ (lit "tt0113277").

Definition heat_found : MovieScraper.t :=
  MovieScraper.with_movie_path heat (lit "/film/heat-1995/").

Definition heat_reviews_url : str :=
  lit "https://letterboxd.com/film/heat-1995/reviews/by/activity/".

(** A scraper for an id that the site does not know. *)
Definition unknown_film : MovieScraper.t := MovieScraper.__init__ (lit "tt0000000").

Definition heat_in_spain : WhereToWatchScraper.t :=
  WhereToWatchScraper.__init__ (lit "tt0113277") (lit "ESP").

Definition heat_in_spain_found : WhereToWatchScraper.t :=
  WhereToWatchScraper.with_movie_path heat_in_spain (lit "/film/heat-1995").

Definition heat_in_spain_known : WhereToWatchScraper.t :=
  WhereToWatchScraper.with_letterboxd_id heat_in_spain_found 51994.

(** A scraper for a film whose page of JSON is not JSON, and one for a film
    whose redirect leads to the root of the site. *)
Definition untitled : WhereToWatchScraper.t :=
  WhereToWatchScraper.__init__ (lit "tt0000002") (lit "ESP").

Definition rootless : WhereToWatchScraper.t :=
  WhereToWatchScraper.__init__ (lit "tt0000001") (lit "ESP").

(** The requests of the methods on these scrapers. *)
Definition heat_redirect : request :=
  MovieScraper.redirect_request (lib := site_lib) (lit "tt0113277").

Definition heat_json : request :=
  WhereToWatchScraper.json_request (lib := site_lib) (Some (lit "/film/heat-1995")).

Definition heat_in_spain_redirect : request :=
  WhereToWatchScraper.redirect_request (lib := site_lib) (lit "tt0113277").

Definition heat_availability : request :=
  WhereToWatchScraper.availability_request (Some 51994%Z) (lit "ESP").

End Site.

Import Site.

(** * Properties *)

(** ** Strings and searches *)

Lemma str_eqb_eq : forall a b : str, str_eqb a b = true <-> a = b.
Proof.
  induction a as [|x a IH]; destruct b as [|y b]; simpl; split;
    try congruence; try discriminate.
  - intros E. apply andb_true_iff in E as [E1 E2].
    apply N.eqb_eq in E1. apply IH in E2. congruence.
  - intros E. injection E as -> ->. apply andb_true_iff. split.
    + apply N.eqb_refl.
    + now apply IH.
Qed.

Lemma str_eqb_refl : forall a : str, str_eqb a a = true.
Proof. intros a. now apply str_eqb_eq. Qed.

Lemma find_some : forall nm cls t x,
  find nm cls t = Some x -> matches nm cls x = true /\ In x (descendants t).
Proof.
  unfold find, find_all. intros nm cls t x E.
  assert (I : In x (filter (matches nm cls) (descendants t))).
  { destruct (filter (matches nm cls) (descendants t)); simpl in E;
      [discriminate | injection E as ->; now left]. }
  apply filter_In in I. tauto.
Qed.

Lemma find_none_find_all : forall nm cls t,
  find nm cls t = None <-> find_all nm cls t = [].
Proof.
  unfold find. intros nm cls t.
  destruct (find_all nm cls t); simpl; split; congruence.
Qed.

Lemma is_absolute_url_not_rooted : forall s,
  is_absolute_url s = true -> startswith (lit "/") s = false.
Proof.
  intros [|c s]; [discriminate|]. unfold is_absolute_url.
  intros E. apply andb_true_iff in E as [E _].
  change (char_eqb 47%N c && true = false). unfold char_eqb.
  destruct (N.eqb_spec 47%N c) as [<-|]; [discriminate E | reflexivity].
Qed.

(** ** The loop of [extract_reviews] *)

Section ReviewLoop.
Context `{PyLib}.

(** The review of one block, once its content is found: the fields are
    extracted in the order of the source. *)
Lemma extract_review_content : forall element content_div,
  content_of element = Some content_div ->
  extract_review element =
    (user <- match avatar_of element with
             | Some a => href <- getitem a (lit "href") ;; Ok (strip_chars (lit "/") href)
             | None => Ok []
             end ;;
     review_date <- _extract_review_date (attribution_of content_div) ;;
     rating <- _extract_rating (attribution_of content_div) ;;
     likes_count <- _extract_likes_count content_div ;;
     Ok (Some {| user := user;
                 user_image := _extract_user_image (avatar_of element);
                 review_date := review_date;
                 review_text := fst (_extract_spoiler_text (body_of content_div));
                 rating := rating;
                 likes_count := likes_count;
                 contains_spoilers := snd (_extract_spoiler_text (body_of content_div)) |})).
Proof.
  unfold content_of, avatar_of, attribution_of, body_of, extract_review.
  intros element content_div E. rewrite E.
  destruct (_extract_spoiler_text _) as [text spoilers]. reflexivity.
Qed.

(** What a returned review was made of. *)
Lemma extract_review_inv : forall element r,
  extract_review element = Ok (Some r) ->
  exists content_div,
    content_of element = Some content_div /\
    user_image r = _extract_user_image (avatar_of element) /\
    _extract_review_date (attribution_of content_div) = Ok (review_date r) /\
    _extract_rating (attribution_of content_div) = Ok (rating r) /\
    _extract_likes_count content_div = Ok (likes_count r) /\
    review_text r = fst (_extract_spoiler_text (body_of content_div)) /\
    contains_spoilers r = snd (_extract_spoiler_text (body_of content_div)).
Proof.
  intros element r E.
  destruct (content_of element) as [content_div|] eqn:C.
  - exists content_div. rewrite (extract_review_content _ C) in E.
    destruct (match avatar_of element with Some _ => _ | None => _ end); simpl in E;
      [|discriminate].
    destruct (_extract_review_date _); simpl in E; [|discriminate].
    destruct (_extract_rating _); simpl in E; [|discriminate].
    destruct (_extract_likes_count _); simpl in E; [|discriminate].
    injection E as <-. simpl. auto 10.
  - exfalso. unfold content_of in C. unfold extract_review in E. rewrite C in E.
    destruct (match find _ _ element with Some _ => _ | None => _ end); simpl in E;
      discriminate.
Qed.

(** A block without an avatar link, or whose link has an [href], gives a
    review as soon as its attribution block holds a readable rating and its
    like count is readable. *)
Lemma extract_review_returns : forall element content_div block rt lc,
  content_of element = Some content_div ->
  (forall a, avatar_of element = Some a -> dict_get (lit "href") (attrs a) <> None) ->
  attribution_of content_div = Some block ->
  _extract_rating (Some block) = Ok rt ->
  _extract_likes_count content_div = Ok lc ->
  exists r, extract_review element = Ok (Some r).
Proof.
  intros element content_div block rt lc C A B R L.
  rewrite (extract_review_content _ C), B, R, L.
  assert (D : exists d, _extract_review_date (Some block) = Ok d).
  { unfold _extract_review_date.
    destruct (find _ _ block); [|eauto].
    destruct (find _ _ _); [|eauto].
    destruct (dict_get _ _); [|eauto].
    destruct (fromisoformat _); eauto. }
  destruct D as [d ->].
  destruct (avatar_of element) as [a|] eqn:EA.
  - specialize (A a eq_refl). unfold getitem.
    destruct (dict_get (lit "href") (attrs a)); [|congruence]. simpl. eauto.
  - simpl. eauto.
Qed.

Lemma extract_reviews_loop_In : forall elements reviews rs r,
  extract_reviews_loop reviews elements = Ok rs ->
  In r rs ->
  In r reviews \/
  exists element, In element elements /\ extract_review element = Ok (Some r).
Proof.
  induction elements as [|element rest IH]; simpl; intros reviews rs r E I.
  - injection E as <-. now left.
  - destruct (extract_review element) as [[review|]|] eqn:X; simpl in E;
      [| |discriminate].
    + destruct (IH _ _ _ E I) as [J|(e & J & K)].
      * apply in_app_or in J as [J|[<-|[]]]; [now left|].
        right. exists element. auto.
      * right. exists e. auto.
    + destruct (IH _ _ _ E I) as [J|(e & J & K)]; [now left|].
      right. exists e. auto.
Qed.

(** Every review that [extract_reviews] returns is the review of one of the
    review blocks of the document. *)
Lemma extract_reviews_In : forall self rs r,
  extract_reviews self = Ok rs ->
  In r rs ->
  exists element,
    In element (review_elements self) /\ extract_review element = Ok (Some r).
Proof.
  unfold extract_reviews. intros self rs r E I.
  destruct (extract_reviews_loop_In _ _ _ E I) as [[]|X]. exact X.
Qed.

(** The loop returns as soon as every block gives a review or is skipped. *)
Lemma extract_reviews_loop_returns : forall elements reviews,
  (forall element, In element elements -> exists o, extract_review element = Ok o) ->
  exists rs, extract_reviews_loop reviews elements = Ok rs.
Proof.
  induction elements as [|element rest IH]; intros reviews A; simpl; [eauto|].
  destruct (A element (or_introl eq_refl)) as [o ->]. cbn [bind].
  destruct o; apply IH; intros e I; apply A; now right.
Qed.

(** A document without a review block gives the empty list. *)
Lemma extract_reviews_no_block : forall self,
  review_elements self = [] -> extract_reviews self = Ok [].
Proof. unfold extract_reviews. intros self ->. reflexivity. Qed.

End ReviewLoop.

(** ** Reviews *)

Section Reviews.
Context `{PyLib}.

Lemma extract_rating_none_raises : _extract_rating None = Raise AttributeError.
Proof. reflexivity. Qed.

Lemma extract_review_date_none_raises : _extract_review_date None = Raise AttributeError.
Proof. reflexivity. Qed.

(** A returned review comes from a block that has its content and, in it,
    an attribution block. *)
Lemma extract_review_attribution : forall element r,
  extract_review element = Ok (Some r) ->
  exists content_div block,
    content_of element = Some content_div /\
    attribution_of content_div = Some block /\
    _extract_review_date (Some block) = Ok (review_date r) /\
    _extract_rating (Some block) = Ok (rating r).
Proof.
  intros element r E.
  destruct (extract_review_inv _ E) as (content_div & C & _ & D & R & _).
  destruct (attribution_of content_div) as [block|] eqn:A; [|discriminate D].
  exists content_div, block. auto.
Qed.

(** Whenever the content of a block has no attribution block, the review of
    the block is not built: reading the date raises [AttributeError]. *)
Lemma extract_review_without_attribution : forall element content_div,
  content_of element = Some content_div ->
  attribution_of content_div = None ->
  (forall a, avatar_of element = Some a -> dict_get (lit "href") (attrs a) <> None) ->
  extract_review element = Raise AttributeError.
Proof.
  intros element content_div C A V.
  rewrite (extract_review_content _ C), A.
  destruct (avatar_of element) as [a|]; [|reflexivity].
  specialize (V a eq_refl). unfold getitem.
  destruct (dict_get (lit "href") (attrs a)); [reflexivity | congruence].
Qed.

(** C1: [extract_reviews] is claimed never to raise, a missing attribution
    block degrading to default values.  On the document whose only review
    block is [<li class="film-detail"><div class="film-detail-content"></div></li>]
    the call raises [AttributeError], whatever the library functions do. *)
Theorem extract_reviews_raises_without_attribution :
  extract_reviews (document [Child bare_block]) = Raise AttributeError.
Proof. vm_compute. reflexivity. Qed.

(** C9: in a review that the parser returns, the profile image is the [src]
    of the image inside the profile link: joined to the base URL
    [https://letterboxd.com] when it starts with a slash, unchanged when it
    does not, in particular when it is an absolute URL; and it is the empty
    string without a profile link, without an image in it or without a [src]
    on the image. *)
Theorem user_image_resolution : forall element r,
  extract_review element = Ok (Some r) ->
  (forall a src,
      avatar_of element = Some a -> image_src_of a = Some src ->
      (startswith (lit "/") src = true ->
       user_image r = urljoin (lit "https://letterboxd.com") src) /\
      (startswith (lit "/") src = false -> user_image r = src) /\
      (is_absolute_url src = true -> user_image r = src)) /\
  (avatar_of element = None -> user_image r = []) /\
  (forall a, avatar_of element = Some a -> image_src_of a = None -> user_image r = []).
Proof.
  intros element r E.
  destruct (extract_review_inv _ E) as (_ & _ & -> & _).
  unfold _extract_user_image, image_src_of, _BASE_URL.
  split; [|split].
  - intros a src -> S.
    destruct (find (lit "img") None a) as [img|]; [|discriminate S]. rewrite S.
    assert (P : startswith (lit "/") src = false -> 
                (if startswith (lit "/") src
                 then urljoin (lit "https://letterboxd.com") src else src) = src)
      by (now intros ->).
    split; [now intros -> | split; [exact P|]].
    intros A. apply P. now apply is_absolute_url_not_rooted.
  - now intros ->.
  - intros a -> S.
    destruct (find (lit "img") None a) as [img|]; [|reflexivity]. now rewrite S.
Qed.

End Reviews.

(** On the sample blocks: a rooted path is joined to the base URL, an
    absolute URL is kept. *)
Lemma user_image_resolution_witness :
  user_image plain_review = lit "https://letterboxd.com/avatar/abc.jpg" /\
  user_image spoiler_review = lit "https://a.ltrbxd.com/abc.jpg".
Proof.
  split.
  - assert (E : extract_review plain_block = Ok (Some plain_review))
      by (vm_compute; reflexivity).
    destruct (user_image_resolution _ E) as [R _].
    destruct (R (el "a" ["avatar"%string] [("href", "/alice/")%string]
                   [Child (el "img" [] [("src", "/avatar/abc.jpg")%string] [])])
                (lit "/avatar/abc.jpg") eq_refl eq_refl) as [R1 _].
    exact (R1 eq_refl).
  - assert (E : extract_review spoiler_block = Ok (Some spoiler_review))
      by (vm_compute; reflexivity).
    destruct (user_image_resolution _ E) as [R _].
    destruct (R (el "a" ["avatar"%string] [("href", "/alice/")%string]
                   [Child (el "img" [] [("src", "https://a.ltrbxd.com/abc.jpg")%string] [])])
                (lit "https://a.ltrbxd.com/abc.jpg") eq_refl eq_refl) as (_ & _ & R3).
    exact (R3 eq_refl).
Defined.

(** ** Dates and review texts *)

Lemma replace_last_char : forall z new body,
  contains [z] body = false ->
  replace [z] new (body ++ [z]) = body ++ new.
Proof.
  intros z new body. unfold replace.
  induction body as [|c body IH]; intros E.
  - simpl. unfold char_eqb. rewrite N.eqb_refl. simpl. now rewrite app_nil_r.
  - simpl in E. apply orb_false_iff in E as [E1 E2].
    change ((c :: body) ++ [z]) with (c :: (body ++ [z])).
    cbn [replace_from startswith]. cbn [startswith] in E1.
    rewrite andb_true_r in *. rewrite E1. simpl. f_equal. now apply IH.
Qed.

Section ReviewFields.
Context `{PyLib}.


(** C10: when the body of a block has the spoiler marker and no hidden
    section, the review is flagged and its text is empty, whatever the
    visible paragraphs of the body hold. *)
Theorem spoiler_without_hidden_section : forall element content_div body r,
  extract_review element = Ok (Some r) ->
  content_of element = Some content_div ->
  body_of content_div = Some body ->
  spoiler_marker_of body <> None ->
  hidden_section_of body = None ->
  contains_spoilers r = true /\ review_text r = [].
Proof.
  intros element content_div body r E C B M Hd.
  destruct (extract_review_inv _ E) as (cd & C' & _ & _ & _ & _ & T & S).
  rewrite C in C'. injection C' as <-. rewrite B in T, S.
  unfold spoiler_marker_of, hidden_section_of in *.
  unfold _extract_spoiler_text in T, S.
  destruct (find (lit "p") (Some (lit "contains-spoilers")) body); [|congruence].
  rewrite Hd in T, S. split; [exact S | exact T].
Qed.

(** What [_clean_review_text] does to a text. *)
Lemma clean_review_text_eq : forall text,
  _clean_review_text text = replace (lit "<br>") [NEWLINE] (collapse_and_trim text).
Proof. reflexivity. Qed.

(** C4, as the code has it: with the spoiler marker and a hidden section in
    the body, the review is flagged and its text is made of the paragraphs of
    the hidden section only, joined with single spaces, with white space
    collapsed and trimmed, and then with every [<br>] written in the text
    replaced by a newline; without the marker the review is not flagged and
    its text is made in the same way of all the paragraphs of the body;
    without a body the text is empty and the review is not flagged. *)
Theorem review_text_cases : forall element r,
  extract_review element = Ok (Some r) ->
  exists content_div,
    content_of element = Some content_div /\
    (forall body hidden,
        body_of content_div = Some body ->
        spoiler_marker_of body <> None ->
        hidden_section_of body = Some hidden ->
        contains_spoilers r = true /\
        review_text r =
          replace (lit "<br>") [NEWLINE]
            (collapse_and_trim
               (join (lit " ") (map get_text (find_all (lit "p") None hidden))))) /\
    (forall body,
        body_of content_div = Some body ->
        spoiler_marker_of body = None ->
        contains_spoilers r = false /\
        review_text r =
          replace (lit "<br>") [NEWLINE]
            (collapse_and_trim
               (join (lit " ") (map get_text (find_all (lit "p") None body))))) /\
    (body_of content_div = None ->
     review_text r = [] /\ contains_spoilers r = false).
Proof.
  intros element r E.
  destruct (extract_review_inv _ E) as (content_div & C & _ & _ & _ & _ & T & S).
  exists content_div. split; [exact C|].
  unfold spoiler_marker_of, hidden_section_of.
  unfold _extract_spoiler_text in T, S.
  split; [|split].
  - intros body hidden B M Hd. rewrite B in T, S.
    destruct (find (lit "p") (Some (lit "contains-spoilers")) body); [|congruence].
    rewrite Hd in T, S. split; [exact S | exact T].
  - intros body B M. rewrite B, M in T, S. split; [exact S | exact T].
  - intros B. rewrite B in T, S. split; [exact T | exact S].
Qed.

End ReviewFields.


(** On the sample block that only has the warning. *)
Lemma spoiler_without_hidden_section_witness :
  contains_spoilers warning_only_review = true /\
  review_text warning_only_review = [].
Proof.
  assert (E : extract_review warning_only_block = Ok (Some warning_only_review))
    by (vm_compute; reflexivity).
  refine (spoiler_without_hidden_section _ E eq_refl eq_refl _ eq_refl).
  vm_compute. discriminate.
Defined.

(** On the sample block with a hidden section. *)
Lemma review_text_cases_witness :
  contains_spoilers spoiler_review = true /\
  review_text spoiler_review = lit "He dies. a" ++ [NEWLINE] ++ lit "b".
Proof.
  assert (E : extract_review spoiler_block = Ok (Some spoiler_review))
    by (vm_compute; reflexivity).
  destruct (review_text_cases _ E) as (content_div & C & R & _).
  vm_compute in C. injection C as <-.
  destruct (R _ _ eq_refl ltac:(vm_compute; discriminate) eq_refl) as [R1 R2].
  split; [exact R1|]. rewrite R2. vm_compute. reflexivity.
Defined.

(** C4, as the claim has it, fails on a hidden section whose text holds the
    characters [<br>]: the review of [spoiler_block] has a newline in their
    place, so that its text is not the collapsed and trimmed text of the
    hidden paragraphs. *)
Lemma review_text_not_only_collapsed :
  exists content_div body hidden,
    extract_review spoiler_block = Ok (Some spoiler_review) /\
    content_of spoiler_block = Some content_div /\
    body_of content_div = Some body /\
    spoiler_marker_of body <> None /\
    hidden_section_of body = Some hidden /\
    collapse_and_trim (join (lit " ") (map get_text (find_all (lit "p") None hidden)))
      = lit "He dies. a<br>b" /\
    review_text spoiler_review
      <> collapse_and_trim (join (lit " ") (map get_text (find_all (lit "p") None hidden))).
Proof.
  do 3 eexists.
  split; [vm_compute; reflexivity|].
  split; [vm_compute; reflexivity|].
  split; [vm_compute; reflexivity|].
  split; [vm_compute; discriminate|].
  split; [vm_compute; reflexivity|].
  split; [vm_compute; reflexivity|].
  vm_compute. discriminate.
Qed.

(** ** Streaming services *)

Lemma traverse_Forall2 : forall (A B : Type) (f : A -> result B) xs ys,
  traverse f xs = Ok ys <-> Forall2 (fun x y => f x = Ok y) xs ys.
Proof.
  intros A B f. induction xs as [|x xs IH]; intros ys; simpl.
  - split.
    + intros E. injection E as <-. constructor.
    + intros F. inversion F. reflexivity.
  - split.
    + destruct (f x) as [y|] eqn:X; [|discriminate].
      destruct (traverse f xs) as [ys'|]; [|discriminate].
      intros E. injection E as <-. constructor; [exact X | now apply IH].
    + intros F. inversion F as [|x' y xs' ys' X F']; subst.
      rewrite X. apply IH in F'. now rewrite F'.
Qed.

Lemma traverse_returns : forall (A B : Type) (f : A -> result B) xs,
  (forall x, In x xs -> exists y, f x = Ok y) ->
  exists ys, traverse f xs = Ok ys.
Proof.
  intros A B f. induction xs as [|x xs IH]; intros F; simpl.
  - eauto.
  - destruct (F x (or_introl eq_refl)) as [y ->].
    destruct IH as [ys ->]; [intros; apply F; now right|]. eauto.
Qed.

Lemma traverse_raises : forall (A B : Type) (f : A -> result B) xs e,
  traverse f xs = Raise e -> exists x, In x xs /\ f x = Raise e.
Proof.
  intros A B f. induction xs as [|x xs IH]; intros e; simpl; [discriminate|].
  destruct (f x) as [y|e'] eqn:X.
  - destruct (traverse f xs) as [ys|e'']; [discriminate|].
    intros E. injection E as <-. destruct (IH _ eq_refl) as (x' & I & R). eauto.
  - intros E. injection E as <-. eauto.
Qed.

Lemma dict_get_set_same : forall (V : Type) key (value : V) d,
  dict_get key (dict_set key value d) = Some value.
Proof.
  intros V key value. induction d as [|[k v] d IH]; simpl.
  - now rewrite str_eqb_refl.
  - destruct (str_eqb key k) eqn:E; simpl; now rewrite E.
Qed.

Lemma dict_get_set_other : forall (V : Type) key key' (value : V) d,
  key' <> key ->
  dict_get key' (dict_set key value d) = dict_get key' d.
Proof.
  intros V key key' value d N. induction d as [|[k v] d IH]; simpl.
  - destruct (str_eqb key' key) eqn:E; [|reflexivity].
    apply str_eqb_eq in E. contradiction.
  - destruct (str_eqb key k) eqn:E; simpl.
    + apply str_eqb_eq in E. subst k.
      destruct (str_eqb key' key) eqn:E'; [|reflexivity].
      apply str_eqb_eq in E'. contradiction.
    + now rewrite IH.
Qed.

Lemma dict_set_new_keys : forall (V : Type) key (value : V) d,
  dict_get key d = None ->
  map fst (dict_set key value d) = map fst d ++ [key].
Proof.
  intros V key value. induction d as [|[k v] d IH]; simpl; [reflexivity|].
  destruct (str_eqb key k); [discriminate|]. intros E. simpl. now rewrite IH.
Qed.

Section Services.
Context `{PyLib}.

(** [_parse_service] on an object: the fields are the members under their
    keys, or the empty string; the price is converted when it is truthy. *)
Lemma parse_service_object : forall members,
  _parse_service (JObj members) =
    (price <- match dict_get (lit "price") members with
              | Some v => if PyObj.truthy v
                          then x <- PyObj.to_float v ;; Ok (Some x)
                          else Ok None
              | None => Ok None
              end ;;
     let field key := match dict_get (lit key) members with
                      | Some v => v
                      | None => JStr []
                      end in
     Ok {| name := field "name"%string; icon := field "icon"%string;
           locale := field "locale"%string; viewUrl := field "viewUrl"%string;
           format := field "format"%string; type := field "type"%string;
           price := price; currency := field "currency"%string |}).
Proof.
  intros members. unfold _parse_service, PyObj.get, PyObj.getitem.
  destruct (dict_get (lit "price") members) as [v|]; cbn [bind]; [|reflexivity].
  destruct (PyObj.truthy v); cbn [bind]; [|reflexivity].
  destruct (PyObj.to_float v); reflexivity.
Qed.

Lemma to_float_raises : forall v e,
  PyObj.to_float v = Raise e -> passes_handler e.
Proof.
  intros v e. destruct v; simpl; try (intros E; injection E as <-; exact I);
    try discriminate.
  - unfold float_of_int, float_of_scaled.
    destruct (binary_normalize _ _ _ _ _); try discriminate.
    intros E. injection E as <-. exact I.
  - destruct (float_of_str s); [discriminate|].
    intros E. injection E as <-. simpl. auto.
Qed.

Lemma parse_service_raises : forall v e,
  _parse_service v = Raise e -> passes_handler e.
Proof.
  intros v e.
  destruct v; try (intros E; injection E as <-; exact I).
  rewrite parse_service_object.
  destruct (dict_get (lit "price") members) as [p|]; [|discriminate].
  destruct (PyObj.truthy p); [|discriminate].
  destruct (PyObj.to_float p) eqn:F; [discriminate|].
  intros E. injection E as <-. exact (to_float_raises _ F).
Qed.

End Services.

Section Availability.
Context `{PyLib}.

(** The loop over the categories, on an object: the keys of the result are
    the categories that the object has, in the order of the loop, and each
    of them holds the services of the entries under that category. *)
Lemma get_services_loop_object : forall best cats acc result,
  NoDup cats ->
  (forall c, In c cats -> dict_get c acc = None) ->
  get_services_loop (JObj best) acc cats = Ok result ->
  map fst result = map fst acc ++ filter (fun c => dict_contains c best) cats /\
  (forall c, ~ In c cats -> dict_get c result = dict_get c acc) /\
  (forall c v, In c cats -> dict_get c best = Some v ->
     exists items services,
       PyObj.iterate v = Ok items /\
       traverse _parse_service items = Ok services /\
       dict_get c result = Some services).
Proof.
  intros best. induction cats as [|category rest IH]; intros acc result ND Fresh E.
  - simpl in E. injection E as <-. simpl. rewrite app_nil_r.
    split; [reflexivity|]. split; [reflexivity|]. intros c v [].
  - inversion ND as [|? ? NI ND']; subst.
    cbn [get_services_loop PyObj.contains bind] in E. unfold dict_contains in E.
    cbn [filter]. unfold dict_contains at 1.
    destruct (dict_get category best) as [v|] eqn:G.
    + cbn [PyObj.getitem bind] in E. rewrite G in E. cbn [bind] in E.
      destruct (PyObj.iterate v) as [items|] eqn:It; [|discriminate].
      cbn [bind] in E.
      destruct (traverse _parse_service items) as [services|] eqn:Tr; [|discriminate].
      cbn [bind] in E.
      assert (Fresh' : forall c, In c rest ->
                dict_get c (dict_set category services acc) = None).
      { intros c I. rewrite dict_get_set_other.
        - apply Fresh. now right.
        - intros ->. contradiction. }
      destruct (IH _ _ ND' Fresh' E) as (K & O & S).
      split; [|split].
      * rewrite K, dict_set_new_keys by (apply Fresh; now left).
        now rewrite <- app_assoc.
      * intros c NIc. rewrite O by (intros I; apply NIc; now right).
        apply dict_get_set_other. intros ->. apply NIc. now left.
      * intros c w [<-|I] Gc.
        -- rewrite G in Gc. injection Gc as <-. exists items, services.
           repeat split; try assumption.
           rewrite (O _ NI). apply dict_get_set_same.
        -- now apply S.
    + destruct (IH acc result ND') as (K & O & S); try assumption.
      { intros c I. apply Fresh. now right. }
      split; [exact K|split].
      * intros c NIc. apply O. intros I. apply NIc. now right.
      * intros c w [<-|I] Gc; [congruence | now apply S].
Qed.

Lemma get_services_loop_returns : forall best cats acc,
  (forall c v, In c cats -> dict_get c best = Some v ->
     exists items, PyObj.iterate v = Ok items /\
       forall x, In x items -> exists s, _parse_service x = Ok s) ->
  exists result, get_services_loop (JObj best) acc cats = Ok result.
Proof.
  intros best. induction cats as [|category rest IH]; intros acc W.
  - simpl. eauto.
  - cbn [get_services_loop PyObj.contains bind]. unfold dict_contains.
    destruct (dict_get category best) as [v|] eqn:G.
    + cbn [PyObj.getitem bind]. rewrite G. cbn [bind].
      destruct (W category v (or_introl eq_refl) G) as (items & -> & P).
      cbn [bind]. destruct (traverse_returns _ _ P) as [services ->].
      cbn [bind]. apply IH. intros c w I. apply W. now right.
    + apply IH. intros c w I. apply W. now right.
Qed.

(** No step of the loop raises an exception that the handler catches: a
    category is read only when it is there, and so is the price. *)
Lemma get_services_loop_raises : forall best_data cats acc e,
  get_services_loop best_data acc cats = Raise e -> passes_handler e.
Proof.
  intros best_data. induction cats as [|category rest IH]; intros acc e;
    [discriminate|].
  cbn [get_services_loop].
  destruct (PyObj.contains category best_data) as [[|]|e'] eqn:C; cbn [bind].
  - destruct (PyObj.getitem best_data category) as [entries|e'] eqn:G; cbn [bind].
    + destruct (PyObj.iterate entries) as [items|e'] eqn:It; cbn [bind].
      * destruct (traverse _parse_service items) as [services|e'] eqn:Tr; cbn [bind].
        -- apply IH.
        -- intros E. injection E as <-.
           destruct (traverse_raises _ _ Tr) as (x & _ & R).
           exact (parse_service_raises _ R).
      * intros E. injection E as <-.
        destruct entries; simpl in It; try discriminate; now injection It as <-.
    + intros E. injection E as <-.
      destruct best_data; simpl in G, C; try discriminate;
        try (now injection G as <-).
      unfold dict_contains in C.
      destruct (dict_get category members); discriminate.
  - apply IH.
  - intros E. injection E as <-.
    destruct best_data; simpl in C; try discriminate; now injection C as <-.
Qed.

(** For a text that decodes, the handler catches nothing. *)
Lemma get_services_decoded : forall self v,
  json_decode (_content self) = inr v ->
  get_services self =
    (best_data <- PyObj.get v (lit "best") (JObj []) ;;
     get_services_loop best_data [] categories) /\
  forall e, get_services self = Raise e -> passes_handler e.
Proof.
  intros self v D.
  assert (T : get_services_try self =
              (best_data <- PyObj.get v (lit "best") (JObj []) ;;
               get_services_loop best_data [] categories)).
  { unfold get_services_try, json_loads. now rewrite D. }
  assert (P : forall e, get_services_try self = Raise e -> passes_handler e).
  { rewrite T. intros e.
    destruct (PyObj.get v (lit "best") (JObj [])) as [best_data|e'] eqn:G; cbn [bind].
    - apply get_services_loop_raises.
    - intros E. injection E as <-.
      destruct v; simpl in G; try discriminate; now injection G as <-. }
  assert (S : get_services self = get_services_try self).
  { unfold get_services.
    destruct (get_services_try self) as [r|e] eqn:R; [reflexivity|].
    specialize (P e eq_refl). destruct e; simpl in P; try contradiction; reflexivity. }
  split.
  - now rewrite S.
  - intros e. rewrite S. apply P.
Qed.

End Availability.

Lemma categories_NoDup : NoDup categories.
Proof.
  unfold categories.
  repeat constructor; simpl; intros I;
    repeat (destruct I as [I|I]; [discriminate I|]); exact I.
Qed.

Section AvailabilityClaims.
Context `{PyLib}.

(** C5: for a payload that decodes to an object whose [best] value is an
    object, the keys of the mapping that [get_services] returns are those of
    [stream], [rent] and [buy] that the [best] object has, and under each of
    them the services are those of the entries of the source array, in the
    order of the array; the call returns whenever the categories present hold
    arrays of entries that [_parse_service] accepts. *)
Theorem services_by_category : forall self top best,
  json_decode (_content self) = inr (JObj top) ->
  dict_get (lit "best") top = Some (JObj best) ->
  (forall result,
      get_services self = Ok result ->
      map fst result =
        filter (fun c => dict_contains c best) [lit "stream"; lit "rent"; lit "buy"] /\
      forall category entries,
        In category [lit "stream"; lit "rent"; lit "buy"] ->
        dict_get category best = Some (JArr entries) ->
        exists services,
          dict_get category result = Some services /\
          Forall2 (fun entry service => _parse_service entry = Ok service)
                  entries services) /\
  ((forall category v,
       In category [lit "stream"; lit "rent"; lit "buy"] ->
       dict_get category best = Some v ->
       exists entries, v = JArr entries /\
         forall entry, In entry entries -> exists s, _parse_service entry = Ok s) ->
   exists result, get_services self = Ok result).
Proof.
  intros self top best D B.
  destruct (get_services_decoded _ D) as [S _].
  cbn [PyObj.get] in S. rewrite B in S. cbn [bind] in S. rewrite S.
  change [lit "stream"; lit "rent"; lit "buy"] with categories.
  split.
  - intros result E.
    destruct (get_services_loop_object best [] categories_NoDup
                (fun c _ => eq_refl) E) as (K & _ & V).
    split; [exact K|].
    intros category entries I G.
    destruct (V _ _ I G) as (items & services & It & Tr & R).
    simpl in It. injection It as <-.
    exists services. split; [exact R|]. now apply traverse_Forall2.
  - intros W. apply get_services_loop_returns.
    intros c v I G. destruct (W c v I G) as (entries & -> & P).
    exists entries. split; [reflexivity | exact P].
Qed.

(** C7: the price of a service is the float conversion of the [price] member
    of its entry exactly when that member is there and truthy, the conversion
    raising what [float] raises; it is [None] when the member is missing or
    falsy, as zero and [null] are.  The payload
    [{"best":{"rent":[{"name":"N","price":0}]}}] gives one [rent] service,
    whose price is [None]. *)
Theorem price_conversion : forall members,
  (forall v,
      dict_get (lit "price") members = Some v -> PyObj.truthy v = true ->
      (forall x, PyObj.to_float v = Ok x ->
         exists s, _parse_service (JObj members) = Ok s /\ price s = Some x) /\
      (forall e, PyObj.to_float v = Raise e ->
         _parse_service (JObj members) = Raise e)) /\
  (dict_get (lit "price") members = None \/
   (exists v, dict_get (lit "price") members = Some v /\ PyObj.truthy v = false) ->
   exists s, _parse_service (JObj members) = Ok s /\ price s = None) /\
  (PyObj.truthy JNull = false /\ PyObj.truthy (JInt 0) = false /\
   forall sign, PyObj.truthy (JFloat (S754_zero sign)) = false) /\
  (forall self,
      json_decode (_content self) = inr rent_free ->
      get_services self = Ok [(lit "rent", [named_service "N" None])]).
Proof.
  intros members. rewrite parse_service_object.
  split; [|split; [|split]].
  - intros v -> ->. split.
    + intros x ->. cbn [bind]. eauto.
    + now intros e ->.
  - intros [->|(v & -> & ->)]; cbn [bind]; eauto.
  - repeat split.
  - intros self D. destruct (get_services_decoded _ D) as [-> _]. reflexivity.
Qed.


End AvailabilityClaims.

(** On a payload with [buy], [stream] and a key that is not a category. *)
Lemma services_by_category_witness :
  exists result,
    get_services {| _content := stream_and_buy_text |} = Ok result /\
    map fst result = [lit "stream"; lit "buy"] /\
    dict_get (lit "buy") result
      = Some [named_service "B1" (Some float_three); named_service "B2" None].
Proof.
  pose (self := {| _content := stream_and_buy_text |}).
  assert (D : json_decode (_content self) = inr stream_and_buy)
    by (vm_compute; reflexivity).
  destruct (services_by_category self (best := stream_and_buy_best) D eq_refl)
    as [R T].
  destruct T as [result E].
  { intros category v I G.
    destruct I as [<-|[<-|[<-|[]]]]; vm_compute in G; try discriminate G;
      injection G as <-; eexists; (split; [reflexivity|]); intros entry J.
    - destruct J as [<-|[]]. vm_compute. eexists. reflexivity.
    - destruct J as [<-|[<-|[]]]; vm_compute; eexists; reflexivity. }
  exists result. split; [exact E|].
  destruct (R result E) as [K V]. split; [exact K|].
  destruct (V (lit "buy") _ (or_intror (or_intror (or_introl eq_refl))) eq_refl)
    as (services & G & F).
  rewrite G. f_equal.
  inversion F as [|e1 s1 l1 t1 P1 F1]; subst.
  inversion F1 as [|e2 s2 l2 t2 P2 F2]; subst.
  inversion F2; subst.
  vm_compute in P1. vm_compute in P2.
  injection P1 as <-. injection P2 as <-. reflexivity.
Defined.

(** On the payload of the claim, and on an entry whose price is 3. *)
Lemma price_conversion_witness :
  get_services {| _content := rent_free_text |}
    = Ok [(lit "rent", [named_service "N" None])] /\
  exists s, _parse_service (JObj [(lit "price", JInt 3)]) = Ok s /\
            price s = Some float_three.
Proof.
  destruct (price_conversion [(lit "price", JInt 3)]) as (P & _ & _ & R).
  split.
  - apply (R {| _content := rent_free_text |}). vm_compute. reflexivity.
  - destruct (P (JInt 3) eq_refl eq_refl) as [Q _]. exact (Q float_three eq_refl).
Defined.



(** ** Decimal numerals *)

Lemma lit_String : forall a s, lit (String a s) = N_of_ascii a :: lit s.
Proof. reflexivity. Qed.

Lemma int_digits_acc : forall d acc,
  int_digits (Zpos acc) true (lit (NilEmpty.string_of_uint d))
  = Some (Zpos (Pos.of_uint_acc d acc)).
Proof.
  induction d; intros acc; cbn [NilEmpty.string_of_uint Pos.of_uint_acc];
    [reflexivity|..]; rewrite lit_String; cbn [int_digits];
    match goal with |- context [is_digit ?c] => change (is_digit c) with true end;
    cbv iota; rewrite <- IHd; f_equal;
    try match goal with
        | |- context [digit_value ?c] =>
            let v := eval vm_compute in (digit_value c) in
            change (digit_value c) with v
        end; lia.
Qed.

Lemma int_digits_uint : forall d,
  int_digits 0 true (lit (NilEmpty.string_of_uint d)) = Some (Z.of_N (Pos.of_uint d)).
Proof.
  induction d; cbn [NilEmpty.string_of_uint Pos.of_uint];
    [reflexivity|..]; rewrite lit_String; cbn [int_digits];
    match goal with |- context [is_digit ?c] => change (is_digit c) with true end;
    cbv iota;
    match goal with
    | |- context [digit_value ?c] =>
        let v := eval vm_compute in (10 * 0 + digit_value c)%Z in
        change (10 * 0 + digit_value c)%Z with v
    end;
    [exact IHd | apply int_digits_acc ..].
Qed.

Lemma uint_digits : forall d,
  Forall (fun c => is_digit c = true) (lit (NilEmpty.string_of_uint d)).
Proof.
  induction d; cbn [NilEmpty.string_of_uint]; [exact (Forall_nil _)|..];
    rewrite lit_String; (constructor; [reflexivity | exact IHd]).
Qed.

(** The numeral of a natural number is a string of digits, not empty. *)
Lemma decimal_digits : forall n,
  decimal n <> [] /\ Forall (fun c => is_digit c = true) (decimal n).
Proof.
  intros n. unfold decimal.
  assert (NN : N.to_uint n <> Decimal.Nil).
  { destruct n; [discriminate | apply DecimalPos.Unsigned.to_uint_nonnil]. }
  destruct (N.to_uint n) eqn:E; [congruence|..]; clear NN;
    (split; [discriminate | apply uint_digits]).
Qed.

Lemma is_digit_range : forall c, is_digit c = true -> (48 <= c <= 57)%N.
Proof.
  unfold is_digit. intros c E. apply andb_true_iff in E as [E1 E2].
  apply N.leb_le in E1, E2. lia.
Qed.

Lemma digit_not_space : forall c, is_digit c = true -> isspace c = false.
Proof.
  intros c D. apply is_digit_range in D. unfold isspace.
  rewrite (proj2 (N.leb_gt c 13)), (proj2 (N.leb_gt c 32)),
    (proj2 (N.leb_gt 8192 c)) by lia.
  rewrite !(proj2 (N.eqb_neq c _)) by lia.
  now rewrite !andb_false_r.
Qed.

Lemma digit_not_char : forall c x,
  is_digit c = true -> is_digit x = false -> char_eqb c x = false.
Proof.
  intros c x D X. unfold char_eqb.
  destruct (N.eqb_spec c x) as [->|]; congruence.
Qed.

Lemma lstrip_by_head : forall f c s, f c = false -> lstrip_by f (c :: s) = c :: s.
Proof. intros f c s E. simpl. now rewrite E. Qed.

(** A string whose first and last characters are not white space is its own
    stripped form; so is a string of digits. *)
Lemma strip_digits : forall s,
  Forall (fun c => is_digit c = true) s -> strip s = s.
Proof.
  intros s F. unfold strip, strip_by, rstrip_by.
  assert (L : forall t, Forall (fun c => is_digit c = true) t -> lstrip_by isspace t = t).
  { intros [|c t] Ft; [reflexivity|]. apply lstrip_by_head.
    inversion Ft; subst. now apply digit_not_space. }
  rewrite (L s F), L, rev_involutive; [reflexivity|].
  apply Forall_rev. exact F.
Qed.

Lemma int_literal_decimal : forall n, int_literal (decimal n) = Some (Z.of_N n).
Proof.
  intros n. destruct (decimal_digits n) as [NE F].
  assert (V : int_digits 0 true (decimal n) = Some (Z.of_N n)).
  { unfold decimal. rewrite <- (DecimalN.Unsigned.of_to n) at 2. unfold N.of_uint.
    destruct (N.to_uint n) eqn:E; try apply int_digits_uint.
    destruct n; [discriminate E|]. now apply DecimalPos.Unsigned.to_uint_nonnil in E. }
  destruct (decimal n) as [|c s]; [congruence|].
  inversion F as [|? ? D F']; subst.
  unfold int_literal.
  rewrite (digit_not_char c HYPHEN D eq_refl), (digit_not_char c PLUS D eq_refl).
  cbn [int_digits] in *. now rewrite D in *.
Qed.

(** Reading back the numeral of a natural number. *)
Lemma int_of_str_decimal : forall n, int_of_str (decimal n) = Ok (Z.of_N n).
Proof.
  intros n. unfold int_of_str.
  rewrite strip_digits by apply decimal_digits. now rewrite int_literal_decimal.
Qed.

Lemma split_acc_no_sep : forall sep s cur,
  Forall (fun c => char_eqb c sep = false) s ->
  split_acc sep cur s = [rev cur ++ s].
Proof.
  intros sep. induction s as [|c s IH]; intros cur F; simpl.
  - now rewrite app_nil_r.
  - inversion F as [|? ? C F']; subst. rewrite C, IH by assumption.
    simpl. now rewrite <- app_assoc.
Qed.

(** The part after the hyphen of the token [rated-N]. *)
Lemma second_part_rated : forall n,
  second_part (lit "rated-" ++ decimal n) = Ok (decimal n).
Proof.
  intros n. unfold second_part, split.
  change (split_acc HYPHEN [] (lit "rated-" ++ decimal n))
    with (lit "rated" :: split_acc HYPHEN [] (decimal n)).
  rewrite split_acc_no_sep; [reflexivity|].
  destruct (decimal_digits n) as [_ F].
  eapply Forall_impl; [|exact F]. intros c D. now apply digit_not_char.
Qed.

(** ** Ratings *)

Section Ratings.
Context `{PyLib}.

(** C3, as the code has it: a returned review comes from a block with an
    attribution block.  If the first class token of the rating indicator
    that starts with [rated-] is [rated-N] for a decimal numeral [N], the
    rating is [N / 2] written by [str], so that [rated-7] gives [3.5]; if the
    indicator has no such token and its text, trimmed, is not empty, the
    rating is the number of black stars in that text, plus one half when the
    text holds the one-half sign, written by [str]; if the indicator has no
    such token and its trimmed text is empty, there is no rating; and there
    is none without a rating indicator. *)
Theorem rating_cases : forall element r,
  extract_review element = Ok (Some r) ->
  exists content_div block,
    content_of element = Some content_div /\
    attribution_of content_div = Some block /\
    (forall rating_span n rest,
        rating_indicator_of block = Some rating_span ->
        rated_tokens rating_span = (lit "rated-" ++ decimal n) :: rest ->
        exists x, int_truediv_2 (Z.of_N n) = Ok x /\ rating r = Some (float_repr x)) /\
    (forall rating_span,
        rating_indicator_of block = Some rating_span ->
        rated_tokens rating_span = [] ->
        let stars_text := strip (get_text rating_span) in
        (stars_text <> [] ->
         exists x,
           int_add_float (Z.of_nat (count BLACK_STAR stars_text))
             (if contains [ONE_HALF] stars_text then float_half else float_zero) = Ok x /\
           rating r = Some (float_repr x)) /\
        (stars_text = [] -> rating r = None)) /\
    (rating_indicator_of block = None -> rating r = None) /\
    (exists x, int_truediv_2 7 = Ok x /\ float_repr x = lit "3.5").
Proof.
  intros element r E.
  destruct (extract_review_attribution _ E) as (content_div & block & C & A & _ & R).
  exists content_div, block. split; [exact C|]. split; [exact A|].
  unfold _extract_rating in R. unfold rating_indicator_of, rated_tokens.
  split; [|split; [|split]].
  - intros rating_span n rest S T. rewrite S in R. unfold getitem_class in R.
    destruct (class_ rating_span) as [classes|]; [|discriminate T].
    cbn [bind] in R. rewrite T in R. cbv beta iota in R.
    rewrite second_part_rated in R. cbn [bind] in R.
    rewrite int_of_str_decimal in R. cbn [bind] in R.
    destruct (int_truediv_2 (Z.of_N n)) as [x|]; [|discriminate R].
    exists x. split; [reflexivity|]. cbn [bind] in R. now injection R.
  - intros rating_span S T. rewrite S in R. unfold getitem_class in R.
    destruct (class_ rating_span) as [classes|]; [|discriminate R].
    cbn [bind] in R. rewrite T in R. cbv beta iota in R.
    set (stars_text := strip (get_text rating_span)) in *. split.
    + intros NE. destruct stars_text as [|c s] eqn:ST; [congruence|].
      unfold stars_rating in R.
      destruct (int_add_float _ _) as [x|]; [|discriminate R].
      exists x. split; [reflexivity|]. cbn [bind] in R. now injection R.
    + intros EQ. rewrite EQ in R. now injection R.
  - intros S. rewrite S in R. now injection R.
  - eexists. split; [vm_compute; reflexivity|]. vm_compute. reflexivity.
Qed.

End Ratings.

(** On the sample blocks: a token [rated-7], three stars and a half, and an
    indicator without text. *)
Lemma rating_cases_witness :
  rating plain_review = Some (lit "3.5") /\
  rating spoiler_review = Some (lit "3.5") /\
  rating warning_only_review = None.
Proof.
  split; [|split].
  - assert (E : extract_review plain_block = Ok (Some plain_review))
      by (vm_compute; reflexivity).
    destruct (rating_cases _ E) as (content_div & block & C & A & R & _).
    vm_compute in C. injection C as <-. vm_compute in A. injection A as <-.
    destruct (R _ 7%N [] eq_refl eq_refl) as (x & D & ->).
    vm_compute in D. injection D as <-. reflexivity.
  - assert (E : extract_review spoiler_block = Ok (Some spoiler_review))
      by (vm_compute; reflexivity).
    destruct (rating_cases _ E) as (content_div & block & C & A & _ & R & _).
    vm_compute in C. injection C as <-. vm_compute in A. injection A as <-.
    destruct (R _ eq_refl eq_refl) as [R1 _].
    destruct (R1 ltac:(vm_compute; discriminate)) as (x & D & ->).
    vm_compute in D. injection D as <-. reflexivity.
  - assert (E : extract_review warning_only_block = Ok (Some warning_only_review))
      by (vm_compute; reflexivity).
    destruct (rating_cases _ E) as (content_div & block & C & A & _ & R & _).
    vm_compute in C. injection C as <-. vm_compute in A. injection A as <-.
    destruct (R _ eq_refl eq_refl) as [_ R2]. exact (R2 eq_refl).
Defined.

(** C3, as the claim has it, fails on an indicator without a [rated-] token
    and without text: the count of the stars is zero, which [str] writes
    [0.0], but the review has no rating. *)
Lemma empty_indicator_is_unrated :
  exists content_div block rating_span,
    extract_review warning_only_block = Ok (Some warning_only_review) /\
    content_of warning_only_block = Some content_div /\
    attribution_of content_div = Some block /\
    rating_indicator_of block = Some rating_span /\
    rated_tokens rating_span = [] /\
    int_add_float (Z.of_nat (count BLACK_STAR (strip (get_text rating_span))))
      (if contains [ONE_HALF] (strip (get_text rating_span))
       then float_half else float_zero) = Ok float_zero /\
    float_repr float_zero = lit "0.0" /\
    rating warning_only_review = None /\
    rating warning_only_review <> Some (float_repr float_zero).
Proof.
  do 3 eexists.
  repeat (split; [vm_compute; reflexivity|]).
  vm_compute. discriminate.
Qed.

(** ** Rounding keeps the multiples of a power of two *)

Section Rounding.
Local Open Scope Z_scope.
Variable g : Z.

Lemma exact_below_shr_1 : forall mrs e,
  exact_below g mrs e -> exact_below g (shr_1 mrs) (e + 1).
Proof.
  unfold exact_below. intros [m r s] e [N X]. cbn [shr_m shr_r shr_s] in N, X.
  assert (N' : 0 <= shr_m (shr_1 {| shr_m := m; shr_r := r; shr_s := s |})).
  { destruct m as [|[p|p|]|p]; simpl; lia. }
  split; [exact N'|]. clear N'.
  destruct (Z_le_gt_dec g (e + 1)) as [L|G]; [left; exact L | right].
  destruct X as [L|(-> & -> & D)]; [lia|].
  assert (P : 2 ^ (g - e) = 2 * 2 ^ (g - (e + 1))).
  { rewrite <- Z.pow_succ_r by lia. f_equal. lia. }
  rewrite P in D. destruct D as [k D].
  destruct m as [|[p|p|]|p]; simpl; try lia; repeat split.
  - exists 0. lia.
  - exists k. lia.
Qed.

Lemma exact_below_iter : forall p mrs e,
  exact_below g mrs e -> exact_below g (iter_pos shr_1 p mrs) (e + Zpos p).
Proof.
  induction p as [p IH|p IH|]; intros mrs e X; simpl.
  - replace (e + Zpos p~1) with (e + 1 + Zpos p + Zpos p) by lia.
    apply IH, IH, exact_below_shr_1, X.
  - replace (e + Zpos p~0) with (e + Zpos p + Zpos p) by lia.
    apply IH, IH, X.
  - apply exact_below_shr_1, X.
Qed.

Lemma exact_below_shr_fexp : forall m e,
  0 <= m -> multiple g m e ->
  exact_below g (fst (shr_fexp prec emax m e loc_Exact))
              (snd (shr_fexp prec emax m e loc_Exact)).
Proof.
  intros m e N M. unfold shr_fexp, shr. cbn [shr_record_of_loc].
  assert (X : exact_below g {| shr_m := m; shr_r := false; shr_s := false |} e).
  { split; [exact N|]. destruct M as [L|D]; [left; exact L | right; auto]. }
  destruct (fexp prec emax (Zdigits2 m + e) - e) as [|p|p]; cbn [fst snd];
    [exact X | | exact X].
  now apply exact_below_iter.
Qed.

Lemma binary_round_aux_multiple : forall sx mx ex,
  0 <= mx -> multiple g mx ex ->
  rounded_multiple g sx (binary_round_aux prec emax sx mx ex loc_Exact).
Proof.
  intros sx mx ex N M. unfold binary_round_aux.
  pose proof (exact_below_shr_fexp N M) as X.
  destruct (shr_fexp prec emax mx ex loc_Exact) as [mrs' e']. cbn [fst snd] in X.
  set (mx' := round_nearest_even (shr_m mrs') (loc_of_shr_record mrs')).
  assert (N' : 0 <= mx' /\ multiple g mx' e').
  { destruct X as [N0 X]. subst mx'.
    destruct mrs' as [m r s]; cbn [shr_m shr_r shr_s] in *.
    split.
    - destruct r, s; simpl; try destruct (Z.even m); lia.
    - destruct X as [L|(-> & -> & D)]; [left; exact L | right; exact D]. }
  destruct N' as [N' M'].
  pose proof (exact_below_shr_fexp N' M') as Y.
  destruct (shr_fexp prec emax mx' e' loc_Exact) as [mrs'' e'']. cbn [fst snd] in Y.
  destruct Y as [N'' Y].
  destruct (shr_m mrs'') as [|m|m] eqn:E; cbn [rounded_multiple];
    [reflexivity| |lia].
  destruct (e'' <=? emax - prec); cbn [rounded_multiple]; [|reflexivity].
  split; [reflexivity|]. destruct Y as [L|(_ & _ & D)]; [left; exact L | right; exact D].
Qed.

Lemma shl_align_multiple : forall mx ex ex',
  multiple g (Zpos mx) ex ->
  multiple g (Zpos (fst (shl_align mx ex ex'))) (snd (shl_align mx ex ex')) /\
  (ex' <= ex -> snd (shl_align mx ex ex') = ex').
Proof.
  intros mx ex ex' M. unfold shl_align.
  destruct (ex' - ex) as [|d|d] eqn:E; cbn [fst snd].
  - split; [exact M | lia].
  - split; [exact M | lia].
  - split; [|reflexivity].
    change (Pos.iter xO mx d) with (shift_pos d mx).
    rewrite shift_pos_correct. change (Z.pow_pos 2 d) with (2 ^ Zpos d).
    destruct (Z_le_gt_dec g ex') as [L|G]; [left; exact L | right].
    assert (Ex : ex = ex' + Zpos d) by lia.
    destruct (Z_le_gt_dec g ex) as [L|G'].
    + exists (2 ^ (ex - g) * Zpos mx).
      rewrite <- Z.mul_assoc, (Z.mul_comm (Zpos mx)), Z.mul_assoc.
      rewrite <- Z.pow_add_r by lia. do 2 f_equal. lia.
    + destruct M as [L|[k D]]; [lia|]. exists k. rewrite D.
      replace (g - ex') with (g - ex + Zpos d) by lia.
      rewrite Z.pow_add_r by lia. ring.
Qed.

Lemma binary_round_multiple : forall sx mx ex,
  multiple g (Zpos mx) ex ->
  rounded_multiple g sx (binary_round prec emax sx mx ex).
Proof.
  intros sx mx ex M. unfold binary_round.
  destruct (shl_align_multiple (fexp prec emax (Zpos (digits2_pos mx) + ex)) M)
    as [M' _].
  destruct (shl_align mx ex _) as [mz ez]. cbn [fst snd] in M'.
  apply binary_round_aux_multiple; [lia | exact M'].
Qed.

Lemma binary_normalize_multiple : forall m e,
  0 <= m -> multiple g m e ->
  rounded_multiple g false (binary_normalize prec emax m e false).
Proof.
  intros [|p|p] e N M; cbn [binary_normalize]; [reflexivity | | lia].
  now apply binary_round_multiple.
Qed.

End Rounding.

(** ** Bounds on the exponent of a rounded number *)

Section Exponents.
Local Open Scope Z_scope.

Lemma digits2_pos_size : forall p, digits2_pos p = Pos.size p.
Proof. induction p; simpl; congruence. Qed.

Lemma Zdigits2_log2 : forall m, 0 < m -> Zdigits2 m = Z.log2 m + 1.
Proof.
  intros [|p|p] P; try lia. simpl. rewrite digits2_pos_size.
  destruct p; simpl; lia.
Qed.

Lemma Zdigits2_nonneg : forall m, 0 <= Zdigits2 m.
Proof. intros [|p|p]; simpl; lia. Qed.

Lemma Zdigits2_le : forall a b, 0 <= a <= b -> Zdigits2 a <= Zdigits2 b.
Proof.
  intros a b [A B]. destruct (Z.eq_dec a 0) as [->|NZ].
  - apply Zdigits2_nonneg.
  - rewrite !Zdigits2_log2 by lia.
    pose proof (Z.log2_le_mono a b B). lia.
Qed.

Lemma Zdigits2_succ : forall m, 0 <= m -> Zdigits2 (m + 1) <= Zdigits2 m + 1.
Proof.
  intros m N. destruct (Z.eq_dec m 0) as [->|NZ]; [simpl; lia|].
  rewrite !Zdigits2_log2 by lia.
  pose proof (Z.log2_le_mono (m + 1) (2 * m) ltac:(lia)) as L.
  rewrite Z.log2_double in L by lia. lia.
Qed.

Lemma Zdigits2_double : forall m, 0 <= m -> Zdigits2 (2 * m) <= Zdigits2 m + 1.
Proof.
  intros m N. destruct (Z.eq_dec m 0) as [->|NZ]; [simpl; lia|].
  rewrite !Zdigits2_log2, Z.log2_double by lia. lia.
Qed.

Lemma Zdigits2_add : forall a b,
  0 <= a -> 0 <= b -> Zdigits2 (a + b) <= Z.max (Zdigits2 a) (Zdigits2 b) + 1.
Proof.
  intros a b A B. destruct (Z.le_ge_cases a b) as [L|L].
  - pose proof (Zdigits2_le (a := a + b) (b := 2 * b) ltac:(lia)).
    pose proof (Zdigits2_double B). lia.
  - pose proof (Zdigits2_le (a := a + b) (b := 2 * a) ltac:(lia)).
    pose proof (Zdigits2_double A). lia.
Qed.

Lemma digits2_shift : forall m d,
  Zpos (digits2_pos (Pos.iter xO m d)) = Zpos (digits2_pos m) + Zpos d.
Proof.
  intros m d. induction d as [|d IH] using Pos.peano_ind.
  - simpl. lia.
  - rewrite Pos.iter_succ. cbn [digits2_pos]. lia.
Qed.

(** Aligning a mantissa keeps the sum of its size and exponent, and lowers
    the exponent to the smaller of the two. *)
Lemma shl_align_size : forall mx ex ex',
  snd (shl_align mx ex ex') = Z.min ex ex' /\
  Zpos (digits2_pos (fst (shl_align mx ex ex'))) + snd (shl_align mx ex ex')
  = Zpos (digits2_pos mx) + ex.
Proof.
  intros mx ex ex'. unfold shl_align.
  destruct (ex' - ex) as [|d|d] eqn:E; cbn [fst snd]; try lia.
  rewrite digits2_shift. lia.
Qed.

Lemma shr_1_le : forall mrs,
  0 <= shr_m mrs -> 0 <= shr_m (shr_1 mrs) <= shr_m mrs.
Proof. intros [[|[p|p|]|p] r s]; simpl; lia. Qed.

Lemma iter_shr_1_le : forall p mrs,
  0 <= shr_m mrs -> 0 <= shr_m (iter_pos shr_1 p mrs) <= shr_m mrs.
Proof.
  induction p as [p IH|p IH|]; intros mrs N; simpl.
  - pose proof (shr_1_le mrs N) as A.
    pose proof (IH (shr_1 mrs) ltac:(lia)) as B.
    pose proof (IH (iter_pos shr_1 p (shr_1 mrs)) ltac:(lia)). lia.
  - pose proof (IH mrs N) as B.
    pose proof (IH (iter_pos shr_1 p mrs) ltac:(lia)). lia.
  - now apply shr_1_le.
Qed.

(** A shift to the canonical exponent: the mantissa does not grow, and the
    exponent is the larger of the old and the canonical one. *)
Lemma shr_fexp_bounds : forall m e,
  0 <= m ->
  0 <= shr_m (fst (shr_fexp prec emax m e loc_Exact)) <= m /\
  snd (shr_fexp prec emax m e loc_Exact)
  = Z.max e (fexp prec emax (Zdigits2 m + e)).
Proof.
  intros m e N. unfold shr_fexp, shr. cbn [shr_record_of_loc].
  destruct (fexp prec emax (Zdigits2 m + e) - e) as [|p|p] eqn:E; cbn [fst snd].
  - simpl. lia.
  - split; [|lia]. now apply iter_shr_1_le.
  - simpl. lia.
Qed.

Lemma round_nearest_even_bounds : forall m l,
  m <= round_nearest_even m l <= m + 1.
Proof.
  intros m [|[| |]]; simpl; try lia. destruct (Z.even m); lia.
Qed.

(** The rounding of a mantissa of at most [d] bits with an exponent of at
    most [b] does not overflow, as long as the bound on the exponent that
    follows from [d] and [b] is within the range of the format. *)
Lemma binary_round_aux_finite : forall sx mx ex d b,
  0 <= mx -> Zdigits2 mx <= d -> ex <= b -> -1074 <= b ->
  let b' := Z.max b (d + b - 53) in
  let b'' := Z.max b' (d + 1 + b' - 53) in
  b'' <= 971 ->
  match binary_round_aux prec emax sx mx ex loc_Exact with
  | S754_infinity _ => False
  | S754_finite _ m e => Zpos (digits2_pos m) <= d + 1 /\ ex <= e <= b''
  | _ => True
  end.
Proof.
  intros sx mx ex d b N D B Bm b' b'' B''. unfold binary_round_aux.
  destruct (shr_fexp_bounds ex N) as [M1 E1].
  destruct (shr_fexp prec emax mx ex loc_Exact) as [mrs' e']. cbn [fst snd] in *.
  pose proof (round_nearest_even_bounds (shr_m mrs') (loc_of_shr_record mrs')) as R.
  set (mx' := round_nearest_even (shr_m mrs') (loc_of_shr_record mrs')) in *.
  assert (N' : 0 <= mx') by lia.
  destruct (shr_fexp_bounds e' N') as [M2 E2].
  destruct (shr_fexp prec emax mx' e' loc_Exact) as [mrs'' e'']. cbn [fst snd] in *.
  assert (D' : Zdigits2 mx' <= d + 1).
  { pose proof (Zdigits2_le (a := mx') (b := mx + 1) ltac:(lia)).
    pose proof (Zdigits2_succ N). lia. }
  unfold fexp, SpecFloat.emin, prec, emax in *.
  assert (Le' : ex <= e' <= b') by (subst b'; lia).
  assert (Le'' : ex <= e'' <= b'') by (subst b''; lia).
  destruct (shr_m mrs'') as [|m|m] eqn:Em; [exact I| |exact I].
  destruct (Z.leb_spec e'' (1024 - 53)); [|lia].
  split; [|exact Le''].
  pose proof (Zdigits2_le (a := Zpos m) (b := mx') ltac:(lia)) as L. simpl in L. lia.
Qed.

Lemma binary_normalize_finite : forall m e d,
  0 <= m -> Zdigits2 m <= d -> 53 <= d -> -1021 <= e ->
  let b' := Z.max e (d + e - 53) in
  let b'' := Z.max b' (d + 1 + b' - 53) in
  b'' <= 971 ->
  match binary_normalize prec emax m e false with
  | S754_infinity _ => False
  | S754_finite _ m' e' => Zpos (digits2_pos m') <= d + 1 /\ e - 53 <= e' <= b''
  | _ => True
  end.
Proof.
  intros [|p|p] e d N D D53 E b' b'' B''; [exact I| |lia].
  cbn [binary_normalize]. unfold binary_round.
  destruct (shl_align_size p e (fexp prec emax (Zpos (digits2_pos p) + e)))
    as [Ez Dz].
  destruct (shl_align p e _) as [mz ez]. cbn [fst snd] in *.
  simpl in D.
  assert (Bz : e - 53 <= ez <= e /\ Zpos (digits2_pos mz) <= d).
  { unfold fexp, SpecFloat.emin, prec, emax in *. lia. }
  pose proof (@binary_round_aux_finite false (Zpos mz) ez d e ltac:(lia)
                ltac:(simpl; lia) ltac:(lia) ltac:(lia) B'') as F.
  destruct (binary_round_aux prec emax false (Zpos mz) ez loc_Exact); try exact I;
    [exact F|]. fold b' b'' in F. lia.
Qed.

End Exponents.

(** ** The floats of the ratings *)

Section RatingFloats.
Local Open Scope Z_scope.

Lemma multiple_weaken : forall g g' m e,
  g' <= g -> multiple g m e -> multiple g' m e.
Proof.
  unfold multiple. intros g g' m e L [G|[k D]]; [left; lia|].
  destruct (Z_le_gt_dec g e) as [G|G]; [left; lia|].
  destruct (Z_le_gt_dec g' e) as [G'|G']; [left; exact G' | right].
  exists (k * 2 ^ (g - g')). rewrite D, <- Z.mul_assoc, <- Z.pow_add_r by lia.
  do 2 f_equal. lia.
Qed.

Lemma multiple_add : forall g a b e,
  multiple g a e -> multiple g b e -> multiple g (a + b) e.
Proof.
  unfold multiple. intros g a b e [A|A] [B|B]; try (left; lia).
  right. now apply Z.divide_add_r.
Qed.

(** A finite float of positive sign that rounding made of a multiple of one
    half is one, and is not negative. *)
Lemma rounded_half_multiple : forall x,
  rounded_multiple (-1) false x ->
  (forall s, x <> S754_infinity s) ->
  is_half_multiple x = true /\ float_nonneg x = true.
Proof.
  intros [s|s| |s m e] R NI; simpl in R.
  - subst s. split; reflexivity.
  - now destruct (NI s).
  - destruct R.
  - destruct R as [-> M]. split; [|reflexivity].
    unfold is_half_multiple. apply orb_true_iff.
    destruct M as [L|D]; [left; now apply Z.leb_le|].
    destruct (Z_le_gt_dec (-1) e) as [L|G]; [left; now apply Z.leb_le | right].
    apply Z.eqb_eq, Z.mod_divide; [|exact D].
    apply Z.pow_nonzero; lia.
Qed.

(** [n / 2] for a natural number [n]. *)
Lemma int_truediv_2_half_multiple : forall n x,
  0 <= n -> int_truediv_2 n = Ok x ->
  is_half_multiple x = true /\ float_nonneg x = true.
Proof.
  unfold int_truediv_2, float_of_scaled. intros n x N E.
  pose proof (@binary_normalize_multiple (-1) n (-1) N (or_introl (Z.le_refl _))) as R.
  destruct (binary_normalize prec emax n (-1) false) eqn:B; try discriminate E;
    injection E as <-; apply rounded_half_multiple; try exact R; discriminate.
Qed.

Lemma Zdigits2_bound : forall m b, 0 <= m < 2 ^ b -> 0 <= b -> Zdigits2 m <= b.
Proof.
  intros m b [N L] B. destruct (Z.eq_dec m 0) as [->|NZ]; [simpl; lia|].
  rewrite Zdigits2_log2 by lia.
  apply Z.log2_lt_pow2 in L; lia.
Qed.

(** [k + 0.5] and [k + 0.0] for a natural number [k] below 2^63. *)
Lemma int_add_float_half_multiple : forall k (half : bool) x,
  0 <= k < 2 ^ 63 ->
  int_add_float k (if half then float_half else float_zero) = Ok x ->
  is_half_multiple x = true /\ float_nonneg x = true.
Proof.
  unfold int_add_float, float_of_int, float_of_scaled. intros k half x [N L] E.
  pose proof (@binary_normalize_multiple 0 k 0 N (or_introl (Z.le_refl _))) as R.
  pose proof (@binary_normalize_finite k 0 63 N
                (Zdigits2_bound (conj N L) ltac:(lia)) ltac:(lia) ltac:(lia)
                ltac:(lia)) as F.
  destruct (binary_normalize prec emax k 0 false) as [s|s| |s m e] eqn:B;
    try discriminate E; cbn [bind] in E; injection E as <-; simpl in R.
  - subst s. destruct half; split; reflexivity.
  - destruct R.
  - destruct R as [-> M]. apply (multiple_weaken (g' := -1)) in M; [|lia].
    destruct half.
    + unfold float_add, float_half, SFadd. cbn [cond_Zopp].
      destruct F as [Dm Be]. simpl in Be.
      replace (Z.min e (-53)) with (-53) by lia.
      destruct (shl_align_multiple (g := -1) (-53) M) as [MA EA].
      destruct (shl_align_size m e (-53)) as [_ SA].
      rewrite EA in * by lia.
      destruct (@shl_align_multiple (-1) (2 ^ 52)%positive (-53) (-53)) as [MB EB].
      { right. exists 1. reflexivity. }
      destruct (shl_align_size (2 ^ 52)%positive (-53) (-53)) as [_ SB].
      rewrite EB in * by lia.
      set (A := fst (shl_align m e (-53))) in *.
      set (Bm := fst (shl_align (2 ^ 52)%positive (-53) (-53))) in *.
      assert (DA : Zdigits2 (Zpos A) <= 138) by (simpl; lia).
      assert (DB : Zdigits2 (Zpos Bm) <= 138)
        by (simpl; change (Zpos (digits2_pos (2 ^ 52))) with 53 in SB; lia).
      pose proof (Zdigits2_add (a := Zpos A) (b := Zpos Bm) ltac:(lia) ltac:(lia))
        as DS.
      pose proof (@binary_normalize_finite (Zpos A + Zpos Bm) (-53) 139
                    ltac:(lia) ltac:(lia) ltac:(lia) ltac:(lia) ltac:(lia)) as F2.
      pose proof (@binary_normalize_multiple (-1) (Zpos A + Zpos Bm) (-53)
                    ltac:(lia) (multiple_add MA MB)) as R2.
      apply rounded_half_multiple; [exact R2|].
      intros s E. rewrite E in F2. exact F2.
    + apply rounded_half_multiple; [|discriminate]. simpl. auto.
Qed.

End RatingFloats.

(** ** The sign of a rating *)

Lemma int_digits_nonneg : forall s acc after n,
  (0 <= acc)%Z -> int_digits acc after s = Some n -> (0 <= n)%Z.
Proof.
  induction s as [|c s IH]; intros acc after n A; cbn [int_digits].
  - destruct after; [|discriminate]. intros E. injection E as <-. exact A.
  - destruct (is_digit c).
    + apply IH. unfold digit_value.
      pose proof (N2Z.is_nonneg (c - 48)). lia.
    + destruct (char_eqb c UNDERSCORE && after); [|discriminate]. now apply IH.
Qed.

Lemma lstrip_by_Forall : forall (P : char -> Prop) f s,
  Forall P s -> Forall P (lstrip_by f s).
Proof.
  intros P f. induction s as [|c s IH]; intros F; simpl; [exact F|].
  destruct (f c); [|exact F]. apply IH. now inversion F.
Qed.

Lemma strip_by_Forall : forall (P : char -> Prop) f s,
  Forall P s -> Forall P (strip_by f s).
Proof.
  intros P f s F. unfold strip_by, rstrip_by.
  apply Forall_rev, lstrip_by_Forall, Forall_rev, lstrip_by_Forall, F.
Qed.

Lemma lstrip_by_length : forall f s, (List.length (lstrip_by f s) <= List.length s)%nat.
Proof.
  intros f. induction s as [|c s IH]; simpl; [lia|]. destruct (f c); simpl; lia.
Qed.

Lemma strip_length : forall s, (List.length (strip s) <= List.length s)%nat.
Proof.
  intros s. unfold strip, strip_by, rstrip_by. rewrite length_rev.
  pose proof (lstrip_by_length isspace (rev (lstrip_by isspace s))) as A.
  rewrite length_rev in A. pose proof (lstrip_by_length isspace s). lia.
Qed.

Lemma count_length : forall c s, (count c s <= List.length s)%nat.
Proof. intros c s. unfold count. apply filter_length_le. Qed.

Lemma split_acc_Forall : forall sep s cur,
  Forall (fun c => char_eqb c sep = false) cur ->
  Forall (Forall (fun c => char_eqb c sep = false)) (split_acc sep cur s).
Proof.
  intros sep. induction s as [|c s IH]; intros cur F; simpl.
  - constructor; [|constructor]. now apply Forall_rev.
  - destruct (char_eqb c sep) eqn:E.
    + constructor; [now apply Forall_rev | apply IH; constructor].
    + apply IH. now constructor.
Qed.

(** The part of a token after its first hyphen reads as a natural number,
    when it reads as an [int] at all. *)
Lemma second_part_nonneg : forall token part n,
  second_part token = Ok part -> int_of_str part = Ok n -> (0 <= n)%Z.
Proof.
  unfold second_part, int_of_str. intros token part n S E.
  destruct (nth_error (split HYPHEN token) 1) as [p|] eqn:Nth; [|discriminate S].
  injection S as ->.
  assert (F : Forall (fun c => char_eqb c HYPHEN = false) (strip part)).
  { apply strip_by_Forall. apply nth_error_In in Nth.
    pose proof (@split_acc_Forall HYPHEN token [] (Forall_nil _)) as A.
    rewrite Forall_forall in A. now apply A. }
  destruct (int_literal (strip part)) as [v|] eqn:L; [|discriminate E].
  injection E as <-. unfold int_literal in L.
  destruct (strip part) as [|c s]; [discriminate L|].
  inversion F as [|? ? C F']; subst. rewrite C in L.
  destruct (char_eqb c PLUS); now apply int_digits_nonneg in L.
Qed.

Section RatingInvariant.
Context `{PyLib}.

(** A rating is what [str] writes for a float that is a multiple of one half
    and is not negative; the text of the indicator is shorter than 2^63
    characters, as every [str] of the interpreter is. *)
Lemma extract_rating_half_multiple : forall block s,
  (forall rating_span, rating_indicator_of block = Some rating_span ->
     (Z.of_nat (List.length (get_text rating_span)) < 2 ^ 63)%Z) ->
  _extract_rating (Some block) = Ok (Some s) ->
  exists x, s = float_repr x /\ is_half_multiple x = true /\ float_nonneg x = true.
Proof.
  unfold _extract_rating, rating_indicator_of. intros block s Short R.
  destruct (find (lit "span") (Some (lit "rating")) block) as [rating_span|];
    [|discriminate R].
  specialize (Short rating_span eq_refl).
  destruct (getitem_class rating_span) as [classes|]; [|discriminate R].
  cbn [bind] in R.
  destruct (filter (startswith (lit "rated-")) classes) as [|token rest].
  - set (stars_text := strip (get_text rating_span)) in *.
    assert (K : (0 <= Z.of_nat (count BLACK_STAR stars_text) < 2 ^ 63)%Z).
    { pose proof (count_length BLACK_STAR stars_text).
      pose proof (strip_length (get_text rating_span)). subst stars_text. lia. }
    destruct stars_text as [|c t] eqn:ST; [discriminate R|]. rewrite <- ST in *.
    unfold stars_rating in R.
    destruct (int_add_float _ _) as [x|] eqn:A; [|discriminate R].
    cbn [bind] in R. injection R as <-. exists x. split; [reflexivity|].
    exact (int_add_float_half_multiple _ K A).
  - destruct (second_part token) as [part|] eqn:P; [|discriminate R].
    cbn [bind] in R.
    destruct (int_of_str part) as [n|] eqn:I; [|discriminate R].
    cbn [bind] in R.
    destruct (int_truediv_2 n) as [x|] eqn:D; [|discriminate R].
    cbn [bind] in R. injection R as <-. exists x. split; [reflexivity|].
    exact (int_truediv_2_half_multiple (second_part_nonneg _ P I) D).
Qed.

End RatingInvariant.

(** ** Invariants of the records *)

Section Invariants.
Context `{PyLib}.


End Invariants.



(** * Further properties *)

(** ** The loop over the review blocks *)

Section Loop.
Context `{PyLib}.

Lemma extract_reviews_loop_spec : forall elements reviews rs,
  extract_reviews_loop reviews elements = Ok rs <->
  exists outs,
    Forall2 (fun element o => extract_review element = Ok o) elements outs /\
    rs = reviews ++ flat_map kept outs.
Proof.
  induction elements as [|element rest IH]; intros reviews rs; simpl.
  - split.
    + intros E. injection E as <-. exists []. split; [constructor|].
      simpl. now rewrite app_nil_r.
    + intros (outs & F & ->). inversion F. simpl. now rewrite app_nil_r.
  - split.
    + destruct (extract_review element) as [o|] eqn:X; [|discriminate].
      cbn [bind]. intros E.
      assert (E' : extract_reviews_loop (reviews ++ kept o) rest = Ok rs).
      { destruct o; simpl; [exact E | now rewrite app_nil_r]. }
      apply IH in E' as (outs & F & ->).
      exists (o :: outs). split; [now constructor|].
      simpl. now rewrite app_assoc.
    + intros (outs & F & ->). inversion F as [|? o ? outs' X F']; subst.
      rewrite X. cbn [bind].
      assert (G : extract_reviews_loop (reviews ++ kept o) rest
                  = Ok (reviews ++ flat_map kept (o :: outs'))).
      { apply IH. exists outs'. split; [exact F'|]. simpl. now rewrite app_assoc. }
      destruct o; simpl in *; [exact G | now rewrite app_nil_r in G].
Qed.

(** X1: [extract_reviews] returns a list exactly when every matched element
    is read without an exception, and the list then holds the reviews of the
    elements that have content, in the order of the document; an element
    without content adds nothing. *)
Theorem extract_reviews_in_document_order : forall self rs,
  extract_reviews self = Ok rs <->
  exists outs,
    Forall2 (fun element o => extract_review element = Ok o)
            (review_elements self) outs /\
    rs = flat_map kept outs.
Proof.
  intros self rs. unfold extract_reviews. apply extract_reviews_loop_spec.
Qed.

Lemma extract_reviews_loop_raises : forall elements reviews e,
  extract_reviews_loop reviews elements = Raise e <->
  exists before element after,
    elements = before ++ element :: after /\
    (forall b, In b before -> exists o, extract_review b = Ok o) /\
    extract_review element = Raise e.
Proof.
  induction elements as [|element rest IH]; intros reviews e; simpl.
  - split; [discriminate|].
    intros (before & x & after & E & _). now destruct before.
  - split.
    + destruct (extract_review element) as [o|e'] eqn:X; cbn [bind].
      * intros E.
        assert (E' : exists acc, extract_reviews_loop acc rest = Raise e)
          by (destruct o; eauto).
        destruct E' as [acc E']. apply IH in E' as (before & x & after & -> & B & R).
        exists (element :: before), x, after. split; [reflexivity|].
        split; [|exact R]. intros b [<-|I]; eauto.
      * intros E. injection E as <-. exists [], element, rest.
        split; [reflexivity|]. split; [intros b []|exact X].
    + intros (before & x & after & E & B & R).
      destruct before as [|b before]; simpl in E; injection E as -> ->.
      * now rewrite R.
      * destruct (B b (or_introl eq_refl)) as [o ->]. cbn [bind].
        assert (G : forall acc, extract_reviews_loop acc (before ++ x :: after) = Raise e).
        { intros acc. apply IH. exists before, x, after.
          split; [reflexivity|]. split; [|exact R]. intros; apply B; now right. }
        destruct o; apply G.
Qed.

(** X2: [extract_reviews] raises exactly what the first matched element that
    cannot be read raises: the elements before it are read, those after it
    are not looked at, and the reviews read so far are not returned. *)
Theorem extract_reviews_first_failure : forall self e,
  extract_reviews self = Raise e <->
  exists before element after,
    review_elements self = before ++ element :: after /\
    (forall b, In b before -> exists o, extract_review b = Ok o) /\
    extract_review element = Raise e.
Proof.
  intros self e. unfold extract_reviews. apply extract_reviews_loop_raises.
Qed.

End Loop.

(** ** Stripping *)

Lemma lstrip_by_keeps : forall f c s, f c = false -> lstrip_by f (c :: s) = c :: s.
Proof. intros f c s E. simpl. now rewrite E. Qed.

Lemma lstrip_by_drops : forall f pre s,
  forallb f pre = true -> lstrip_by f (pre ++ s) = lstrip_by f s.
Proof.
  intros f. induction pre as [|c pre IH]; intros s A; simpl in *; [reflexivity|].
  apply andb_true_iff in A as [-> A]. now apply IH.
Qed.

Lemma lstrip_by_snoc : forall f s c,
  f c = false -> lstrip_by f (s ++ [c]) = lstrip_by f s ++ [c].
Proof.
  intros f. induction s as [|d s IH]; intros c E; simpl.
  - now rewrite E.
  - destruct (f d); [now apply IH | reflexivity].
Qed.

(** The head of a stripped string is not a stripped character. *)
Lemma lstrip_by_head_kept : forall f s c t,
  lstrip_by f s = c :: t -> f c = false.
Proof.
  intros f. induction s as [|d s IH]; intros c t; simpl; [discriminate|].
  destruct (f d) eqn:E; [apply IH|]. intros X. now injection X as <- <-.
Qed.

Lemma rstrip_by_cons : forall f c s,
  f c = false -> rstrip_by f (c :: s) = c :: rstrip_by f s.
Proof.
  intros f c s E. unfold rstrip_by. simpl rev.
  rewrite lstrip_by_snoc by exact E. now rewrite rev_app_distr.
Qed.

(** A string that neither starts nor ends with a stripped character is left
    as it is, and so is the middle of a string between stripped characters. *)
Lemma strip_by_middle : forall f pre mid post,
  forallb f pre = true -> forallb f post = true ->
  (forall c t, mid = c :: t -> f c = false) ->
  (forall c t, rev mid = c :: t -> f c = false) ->
  strip_by f (pre ++ mid ++ post) = mid.
Proof.
  intros f pre mid post Pre Post Hd Tl. unfold strip_by, rstrip_by.
  rewrite lstrip_by_drops by exact Pre.
  assert (L : lstrip_by f (mid ++ post) = match mid with [] => [] | _ => mid ++ post end).
  { destruct mid as [|c t].
    - simpl. rewrite <- (app_nil_r post). rewrite lstrip_by_drops by exact Post.
      reflexivity.
    - simpl. now rewrite (Hd c t eq_refl). }
  rewrite L. destruct mid as [|c t]; [reflexivity|].
  rewrite rev_app_distr, lstrip_by_drops.
  - destruct (rev (c :: t)) as [|d u] eqn:R.
    + apply (f_equal (@List.length _)) in R. rewrite length_rev in R. discriminate.
    + rewrite lstrip_by_keeps by (now apply (Tl d u)).
      rewrite <- R. apply rev_involutive.
  - rewrite forallb_forall in *. intros x I. apply Post. now apply in_rev.
Qed.

Lemma strip_by_ends : forall f s,
  (forall c t, strip_by f s = c :: t -> f c = false) /\
  (forall c t, rev (strip_by f s) = c :: t -> f c = false).
Proof.
  intros f s. unfold strip_by, rstrip_by. split.
  - intros c t E.
    destruct (lstrip_by f s) as [|d u] eqn:L; [discriminate E|].
    pose proof (lstrip_by_head_kept _ _ L) as D.
    fold (rstrip_by f (d :: u)) in E. rewrite rstrip_by_cons in E by exact D.
    now injection E as <- _.
  - intros c t E. rewrite rev_involutive in E.
    exact (lstrip_by_head_kept _ _ E).
Qed.

Section Handles.
Context `{PyLib}.

Lemma extract_review_user : forall element r,
  extract_review element = Ok (Some r) ->
  match avatar_of element with
  | Some a => exists href, dict_get (lit "href") (attrs a) = Some href /\
                           user r = strip_chars (lit "/") href
  | None => user r = []
  end.
Proof.
  intros element r E.
  destruct (content_of element) as [content_div|] eqn:C.
  - rewrite (extract_review_content _ C) in E.
    destruct (avatar_of element) as [a|].
    + unfold getitem in E. destruct (dict_get (lit "href") (attrs a)) as [href|];
        [|discriminate E]. cbn [bind] in E.
      destruct (_extract_review_date _); cbn [bind] in E; [|discriminate].
      destruct (_extract_rating _); cbn [bind] in E; [|discriminate].
      destruct (_extract_likes_count _); cbn [bind] in E; [|discriminate].
      injection E as <-. exists href. auto.
    + cbn [bind] in E.
      destruct (_extract_review_date _); cbn [bind] in E; [|discriminate].
      destruct (_extract_rating _); cbn [bind] in E; [|discriminate].
      destruct (_extract_likes_count _); cbn [bind] in E; [|discriminate].
      now injection E as <-.
  - destruct (extract_review_inv _ E) as (cd & C' & _). congruence.
Qed.

(** X3: the user of a returned review neither starts nor ends with a slash:
    it is the empty string without a profile link, and otherwise the address
    of the link without the slashes at its two ends. *)
Theorem user_handle_without_slashes : forall element r,
  extract_review element = Ok (Some r) ->
  startswith (lit "/") (user r) = false /\
  endswith (lit "/") (user r) = false /\
  (avatar_of element = None -> user r = []) /\
  (forall a i j handle,
      avatar_of element = Some a ->
      dict_get (lit "href") (attrs a) = Some (repeat SLASH i ++ handle ++ repeat SLASH j) ->
      startswith (lit "/") handle = false ->
      endswith (lit "/") handle = false ->
      user r = handle).
Proof.
  intros element r E. pose proof (extract_review_user _ E) as U.
  assert (S : forall s, (forall c t, s = c :: t -> char_eqb c SLASH = false)
                        <-> startswith (lit "/") s = false).
  { intros [|c t].
    - split; [intros _; reflexivity | intros _ c t X; discriminate X].
    - change (startswith (lit "/") (c :: t)) with (char_eqb SLASH c && true).
      rewrite andb_true_r. unfold char_eqb. rewrite (N.eqb_sym SLASH c). split.
      + intros A. exact (A c t eq_refl).
      + intros A c' t' X. now injection X as <- <-. }
  assert (F : forall c, existsb (char_eqb c) (lit "/") = char_eqb c SLASH).
  { intros c. simpl. apply orb_false_r. }
  assert (Ends : startswith (lit "/") (user r) = false /\
                 endswith (lit "/") (user r) = false).
  { destruct (avatar_of element) as [a|].
    - destruct U as (href & _ & ->). unfold strip_chars, endswith.
      destruct (strip_by_ends (fun c => existsb (char_eqb c) (lit "/")) href) as [A B].
      split; apply S; intros c t X; rewrite <- F; eauto.
    - rewrite U. split; reflexivity. }
  split; [apply Ends|]. split; [apply Ends|]. split.
  - intros A. now rewrite A in U.
  - intros a i j handle A Hr Hs He. rewrite A in U.
    destruct U as (href & G & ->). rewrite Hr in G. injection G as <-.
    unfold strip_chars. apply strip_by_middle.
    + apply forallb_forall. intros x I. apply repeat_spec in I. now subst.
    + apply forallb_forall. intros x I. apply repeat_spec in I. now subst.
    + intros c t X. rewrite F. now apply (proj2 (S handle) Hs c t).
    + intros c t X. rewrite F. now apply (proj2 (S (rev handle)) He c t).
Qed.


End Handles.

(** ** Like counts *)

Lemma strip_of_padded_digits : forall pre post n,
  forallb isspace pre = true -> forallb isspace post = true ->
  strip (pre ++ decimal n ++ post) = decimal n.
Proof.
  intros pre post n Pre Post. unfold strip.
  destruct (decimal_digits n) as [_ F].
  apply strip_by_middle; try assumption.
  - intros c t E. rewrite E in F. inversion F; subst. now apply digit_not_space.
  - intros c t E. apply Forall_rev in F. rewrite E in F. inversion F; subst.
    now apply digit_not_space.
Qed.

Lemma int_digits_rejects : forall s c acc after,
  In c s -> is_digit c = false -> char_eqb c UNDERSCORE = false ->
  int_digits acc after s = None.
Proof.
  induction s as [|d s IH]; intros c acc after I D U; [destruct I|].
  cbn [int_digits]. destruct I as [->|I].
  - now rewrite D, U.
  - destruct (is_digit d); [now apply IH with c|].
    destruct (char_eqb d UNDERSCORE && after); [now apply IH with c | reflexivity].
Qed.

Lemma lstrip_by_In : forall f c s, In c s -> f c = false -> In c (lstrip_by f s).
Proof.
  intros f c. induction s as [|d s IH]; intros I E; [destruct I|]. simpl.
  destruct (f d) eqn:Fd; [|exact I].
  destruct I as [->|I]; [congruence | now apply IH].
Qed.

Lemma strip_by_In : forall f c s, In c s -> f c = false -> In c (strip_by f s).
Proof.
  intros f c s I E. unfold strip_by, rstrip_by.
  apply in_rev. rewrite rev_involutive.
  apply lstrip_by_In; [|exact E]. apply in_rev. rewrite rev_involutive.
  now apply lstrip_by_In.
Qed.

Lemma not_in_int_literal_inv : forall c,
  not_in_int_literal c = true ->
  is_digit c = false /\ char_eqb c UNDERSCORE = false /\ char_eqb c PLUS = false /\
  char_eqb c HYPHEN = false /\ isspace c = false.
Proof.
  unfold not_in_int_literal. intros c E.
  repeat (apply andb_true_iff in E as [E ?]).
  repeat split; now apply negb_true_iff.
Qed.

(** [int] rejects a string with a character that no literal holds, and a
    string of white space. *)
Lemma int_of_str_rejects : forall v,
  (exists c, In c v /\ not_in_int_literal c = true) \/ forallb isspace v = true ->
  int_of_str v = Raise (ValueError None None).
Proof.
  intros v A. unfold int_of_str.
  assert (N : int_literal (strip v) = None); [|now rewrite N].
  destruct A as [(c & I & B)|W].
  - apply not_in_int_literal_inv in B as (D & U & P & Hy & S).
    pose proof (strip_by_In isspace _ _ I S) as J. fold (strip v) in J.
    unfold int_literal. destruct (strip v) as [|x s]; [reflexivity|].
    assert (T : char_eqb x HYPHEN = true \/ char_eqb x PLUS = true -> In c s).
    { intros X. destruct J as [->|J]; [|exact J]. destruct X; congruence. }
    destruct (char_eqb x HYPHEN) eqn:E1.
    + rewrite (int_digits_rejects s c 0%Z false (T (or_introl eq_refl)) D U).
      reflexivity.
    + destruct (char_eqb x PLUS) eqn:E2.
      * exact (int_digits_rejects s c 0%Z false (T (or_intror eq_refl)) D U).
      * exact (int_digits_rejects (x :: s) c 0%Z false J D U).
  - unfold strip, strip_by.
    rewrite <- (app_nil_r v), lstrip_by_drops by exact W. reflexivity.
Qed.

Section Likes.
Context `{PyLib}.


(** X6: a [data-count] that holds an ASCII character of no integer literal,
    or white space only, makes [_extract_likes_count] raise [ValueError], and
    [extract_review] raises it too whenever the date and the rating of the
    block are read: nothing catches it. *)
Theorem likes_count_rejected : forall review_block likes_element v,
  likes_element_of review_block = Some likes_element ->
  dict_get (lit "data-count") (attrs likes_element) = Some v ->
  (exists c, In c v /\ not_in_int_literal c = true) \/ forallb isspace v = true ->
  _extract_likes_count review_block = Raise (ValueError None None) /\
  forall element review_date rating,
    content_of element = Some review_block ->
    (forall a, avatar_of element = Some a -> dict_get (lit "href") (attrs a) <> None) ->
    _extract_review_date (attribution_of review_block) = Ok review_date ->
    _extract_rating (attribution_of review_block) = Ok rating ->
    extract_review element = Raise (ValueError None None).
Proof.
  intros review_block likes_element v L G B.
  assert (R : _extract_likes_count review_block = Raise (ValueError None None)).
  { unfold likes_element_of in L. unfold _extract_likes_count.
    now rewrite L, G, (int_of_str_rejects v B). }
  split; [exact R|].
  intros element review_date rating C A D Rt.
  rewrite (extract_review_content _ C), D, Rt, R.
  destruct (avatar_of element) as [a|]; [|reflexivity].
  specialize (A a eq_refl). unfold getitem.
  destruct (dict_get (lit "href") (attrs a)); [reflexivity | congruence].
Qed.

(** X7: [_extract_review_date] returns a date for every attribution block,
    whatever the block holds, and raises exactly when there is no block. *)
Theorem review_date_never_raises : forall attribution_block,
  (exists d, _extract_review_date attribution_block = Ok d) <->
  attribution_block <> None.
Proof.
  intros [block|]; split; try congruence.
  - intros _. unfold _extract_review_date.
    destruct (find (lit "span") (Some (lit "_nobr")) block) as [date_span|];
      [|eauto].
    destruct (find (lit "time") None date_span) as [time_element|]; [|eauto].
    destruct (dict_get (lit "datetime") (attrs time_element)) as [v|]; [|eauto].
    destruct (fromisoformat _) as [dt|]; eauto.
  - intros [d E]. discriminate E.
Qed.

End Likes.

(** ** The shape of a cleaned text *)

Lemma sub_spaces_Forall : forall (P : char -> Prop) s in_run,
  P SPACE -> Forall (fun c => isspace c = false -> P c) s ->
  Forall P (sub_spaces in_run s).
Proof.
  intros P. induction s as [|c s IH]; intros in_run Sp F; simpl; [constructor|].
  inversion F as [|? ? Pc F']; subst.
  destruct (isspace c) eqn:E.
  - destruct in_run; [|constructor; [exact Sp|]]; now apply IH.
  - constructor; [now apply Pc | now apply IH].
Qed.

Lemma replace_from_Forall : forall (P : char -> Prop) old new s skip,
  Forall P new -> Forall P s -> Forall P (replace_from old new skip s).
Proof.
  intros P old new. induction s as [|c s IH]; intros skip N F; simpl; [constructor|].
  inversion F; subst. destruct skip; [|now apply IH].
  destruct (startswith old (c :: s)).
  - apply Forall_app. split; [exact N | now apply IH].
  - constructor; [assumption | now apply IH].
Qed.

Lemma sub_spaces_single_spaced : forall s in_run,
  single_spaced (sub_spaces in_run s) = true /\
  (in_run = true -> forall c t, sub_spaces in_run s = c :: t -> isspace c = false).
Proof.
  induction s as [|c s IH]; intros in_run; simpl.
  - split; [reflexivity | discriminate].
  - destruct (isspace c) eqn:E.
    + destruct in_run.
      * apply IH.
      * split; [|discriminate].
        destruct (IH true) as [S Hd].
        change (single_spaced (SPACE :: sub_spaces true s) = true).
        destruct (sub_spaces true s) as [|d t] eqn:X; [reflexivity|].
        apply andb_true_iff. split; [|exact S].
        now rewrite (Hd eq_refl d t eq_refl), andb_false_r.
    + split.
      * destruct (IH false) as [S _].
        destruct (sub_spaces false s) as [|d t] eqn:X; [reflexivity|].
        apply andb_true_iff. split; [|exact S]. now rewrite E.
      * intros _ c' t X. now injection X as <- _.
Qed.

Lemma single_spaced_app : forall a b,
  single_spaced (a ++ b) = true -> single_spaced a = true /\ single_spaced b = true.
Proof.
  induction a as [|c a IH]; intros b S; [split; [reflexivity | exact S]|].
  destruct a as [|d a].
  - split; [reflexivity|]. destruct b; [reflexivity|].
    simpl in S. now apply andb_true_iff in S as [_ S].
  - change (negb (isspace c && isspace d) && single_spaced ((d :: a) ++ b) = true) in S.
    apply andb_true_iff in S as [S1 S2]. destruct (IH _ S2) as [A B].
    split; [|exact B]. cbn [single_spaced]. cbn [single_spaced] in A.
    now rewrite S1, A.
Qed.

Lemma lstrip_by_suffix : forall f s, exists pre, s = pre ++ lstrip_by f s.
Proof.
  intros f. induction s as [|c s [pre IH]]; simpl; [now exists []|].
  destruct (f c); [|now exists []].
  exists (c :: pre). simpl. now rewrite <- IH.
Qed.

(** A stripped string is the middle of the string. *)
Lemma strip_by_infix : forall f s, exists pre post, s = pre ++ strip_by f s ++ post.
Proof.
  intros f s. unfold strip_by, rstrip_by.
  destruct (lstrip_by_suffix f s) as [pre E].
  destruct (lstrip_by_suffix f (rev (lstrip_by f s))) as [post' E'].
  exists pre, (rev post'). rewrite E at 1. f_equal.
  rewrite <- rev_app_distr, <- E'. now rewrite rev_involutive.
Qed.

Lemma strip_single_spaced : forall s,
  single_spaced s = true -> single_spaced (strip s) = true.
Proof.
  intros s S. destruct (strip_by_infix isspace s) as (pre & post & E).
  rewrite E in S. apply single_spaced_app in S as [_ S].
  now apply single_spaced_app in S as [S _].
Qed.

Lemma sub_spaces_fixed : forall s in_run,
  single_spaced s = true ->
  Forall (fun c => isspace c = true -> c = SPACE) s ->
  (in_run = true -> forall c t, s = c :: t -> isspace c = false) ->
  sub_spaces in_run s = s.
Proof.
  induction s as [|c s IH]; intros in_run S F Hd; [reflexivity|].
  inversion F as [|? ? Pc F']; subst. cbn [sub_spaces].
  assert (S' : single_spaced s = true).
  { destruct s; [reflexivity|]. cbn [single_spaced] in S.
    now apply andb_true_iff in S as [_ S]. }
  destruct (isspace c) eqn:E.
  - destruct in_run; [now rewrite (Hd eq_refl c s eq_refl) in E|].
    rewrite (Pc eq_refl). f_equal. apply IH; try assumption.
    intros _ d t ->. cbn [single_spaced] in S.
    apply andb_true_iff in S as [S _]. rewrite E in S. simpl in S.
    now apply negb_true_iff in S.
  - f_equal. apply IH; try assumption. discriminate.
Qed.

Lemma strip_fixed : forall s,
  (forall c t, s = c :: t -> isspace c = false) ->
  (forall c t, rev s = c :: t -> isspace c = false) ->
  strip s = s.
Proof.
  intros s Hd Tl. unfold strip.
  pose proof (@strip_by_middle isspace [] s [] eq_refl eq_refl Hd Tl) as E.
  simpl in E. now rewrite app_nil_r in E.
Qed.

Lemma contains_char : forall x s,
  contains [x] s = false -> Forall (fun c => char_eqb x c = false) s.
Proof.
  intros x. induction s as [|c s IH]; intros E; [constructor|].
  cbn [contains startswith] in E. rewrite andb_true_r in E.
  apply orb_false_iff in E as [E1 E2]. constructor; [exact E1 | now apply IH].
Qed.

Lemma replace_from_absent : forall new s,
  Forall (fun c => char_eqb 0x3C%N c = false) s ->
  replace_from (lit "<br>") new 0 s = s.
Proof.
  intros new. induction s as [|c s IH]; intros F; [reflexivity|].
  inversion F as [|? ? C F']; subst. cbn [replace_from].
  change (startswith (lit "<br>") (c :: s))
    with (char_eqb 0x3C%N c && startswith (lit "br>") s).
  rewrite C. cbn [andb]. f_equal. now apply IH.
Qed.

Lemma lstrip_by_nil : forall f s, lstrip_by f s = [] <-> forallb f s = true.
Proof.
  intros f. induction s as [|c s IH]; simpl; [tauto|].
  destruct (f c); simpl; [exact IH | split; discriminate].
Qed.

Lemma strip_by_nil : forall f s, strip_by f s = [] <-> forallb f s = true.
Proof.
  intros f s. unfold strip_by. split.
  - intros E. apply lstrip_by_nil.
    destruct (lstrip_by f s) as [|c t] eqn:L; [reflexivity|].
    rewrite rstrip_by_cons in E by exact (lstrip_by_head_kept _ _ L). discriminate.
  - intros A. apply lstrip_by_nil in A. now rewrite A.
Qed.

Lemma sub_spaces_all_space : forall s in_run,
  forallb isspace (sub_spaces in_run s) = forallb isspace s.
Proof.
  induction s as [|c s IH]; intros in_run; simpl; [reflexivity|].
  destruct (isspace c) eqn:E.
  - destruct in_run; simpl; now rewrite IH.
  - simpl. now rewrite E.
Qed.

Lemma replace_from_nil : forall old new s,
  new <> [] -> replace_from old new 0 s = [] -> s = [].
Proof.
  intros old new [|c s] N E; [reflexivity|]. cbn [replace_from] in E.
  destruct (startswith old (c :: s)); [|discriminate].
  apply app_eq_nil in E as [E _]. contradiction.
Qed.

Section CleanText.
Context `{PyLib}.

(** X8: the white space of a cleaned text is made of spaces and newlines
    only; tabs, carriage returns and the other white-space characters are
    gone. *)
Theorem clean_text_white_space : forall text,
  Forall (fun c => isspace c = true -> c = SPACE \/ c = NEWLINE)
         (_clean_review_text text).
Proof.
  intros text. unfold _clean_review_text, replace. cbn [lit list_ascii_of_string map].
  apply replace_from_Forall.
  - constructor; [auto | constructor].
  - apply strip_by_Forall, sub_spaces_Forall; [auto|].
    apply Forall_forall. intros c _ E1 E2. congruence.
Qed.

(** X9: on a text without the character [<], cleaning is collapsing and
    trimming: no two white-space characters are next to each other in the
    result, it neither starts nor ends with white space, and cleaning it
    again changes nothing. *)
Theorem clean_text_normal_form : forall text,
  contains (lit "<") text = false ->
  let cleaned := _clean_review_text text in
  cleaned = collapse_and_trim text /\
  single_spaced cleaned = true /\
  (forall c t, cleaned = c :: t -> isspace c = false) /\
  (forall c t, rev cleaned = c :: t -> isspace c = false) /\
  _clean_review_text cleaned = cleaned.
Proof.
  intros text A cleaned.
  assert (NoLt : forall t, Forall (fun c => char_eqb 0x3C%N c = false) t ->
            _clean_review_text t = collapse_and_trim t /\
            Forall (fun c => char_eqb 0x3C%N c = false) (collapse_and_trim t)).
  { intros t F.
    assert (G : Forall (fun c => char_eqb 0x3C%N c = false) (collapse_and_trim t)).
    { apply strip_by_Forall, sub_spaces_Forall; [reflexivity|].
      eapply Forall_impl; [|exact F]. auto. }
    split; [|exact G]. rewrite clean_review_text_eq.
    unfold replace. cbn [lit list_ascii_of_string map].
    now apply replace_from_absent. }
  destruct (NoLt text (contains_char _ _ A)) as [E F]. subst cleaned. rewrite E.
  assert (S : single_spaced (collapse_and_trim text) = true).
  { apply strip_single_spaced, sub_spaces_single_spaced. }
  destruct (strip_by_ends isspace (re_sub_spaces text)) as [Hd Tl].
  fold (strip (re_sub_spaces text)) in Hd, Tl.
  change (strip (re_sub_spaces text)) with (collapse_and_trim text) in Hd, Tl.
  repeat split; try assumption.
  destruct (NoLt _ F) as [-> _]. unfold collapse_and_trim at 1, re_sub_spaces.
  rewrite sub_spaces_fixed; [now apply strip_fixed | exact S | | discriminate].
  apply strip_by_Forall, sub_spaces_Forall; [reflexivity|].
  apply Forall_forall. intros c _ E1 E2. congruence.
Qed.

(** X10: the cleaned text is empty exactly when the text is made of white
    space only, the empty text included. *)
Theorem clean_text_empty : forall text,
  _clean_review_text text = [] <-> forallb isspace text = true.
Proof.
  intros text. rewrite clean_review_text_eq. unfold collapse_and_trim, strip.
  rewrite <- (sub_spaces_all_space text false), <- strip_by_nil.
  fold (re_sub_spaces text). split.
  - unfold replace. cbn [lit list_ascii_of_string map].
    apply replace_from_nil. discriminate.
  - now intros ->.
Qed.

End CleanText.

(** ** Payloads of another shape *)

Lemma traverse_In : forall (A B : Type) (f : A -> result B) xs ys x,
  traverse f xs = Ok ys -> In x xs -> exists y, f x = Ok y.
Proof.
  intros A B f. induction xs as [|a xs IH]; intros ys x E I; [destruct I|].
  simpl in E. destruct (f a) as [b|] eqn:X; [|discriminate].
  destruct (traverse f xs) as [bs|] eqn:T; [|discriminate].
  destruct I as [<-|I]; [eauto | exact (IH _ _ eq_refl I)].
Qed.

Section Payloads.
Context `{PyLib}.

Lemma parse_service_accepts : forall entry,
  (exists s, _parse_service entry = Ok s) <-> acceptable_entry entry.
Proof.
  intros entry. unfold acceptable_entry. split.
  - intros [s E]. destruct entry; try discriminate E.
    exists members. split; [reflexivity|].
    rewrite parse_service_object in E.
    destruct (dict_get (lit "price") members) as [p|]; [|exact I].
    intros T. rewrite T in E.
    destruct (PyObj.to_float p) as [x|]; [eauto | discriminate E].
  - intros (members & -> & P). rewrite parse_service_object.
    destruct (dict_get (lit "price") members) as [p|]; [|cbn [bind]; eauto].
    destruct (PyObj.truthy p); [|cbn [bind]; eauto].
    destruct (P eq_refl) as [x ->]. cbn [bind]. eauto.
Qed.

(** The loop on a list or a string: nothing is added, and the first category
    that the value names makes the subscript raise. *)
Lemma get_services_loop_sequence : forall best_data cats acc,
  match best_data with JArr _ | JStr _ => True | _ => False end ->
  get_services_loop best_data acc cats =
    if existsb (fun category =>
                  match PyObj.contains category best_data with
                  | Ok present => present
                  | Raise _ => false
                  end) cats
    then Raise TypeError else Ok acc.
Proof.
  intros best_data. induction cats as [|category rest IH]; intros acc B;
    [reflexivity|].
  cbn [get_services_loop existsb].
  destruct best_data; try destruct B; cbn [PyObj.contains bind].
  - destruct (Py.contains category s); [reflexivity|]. now apply IH.
  - destruct (existsb _ items); [reflexivity|]. now apply IH.
Qed.

(** X11: a payload that decodes to a value that is not an object makes
    [get_services] raise [AttributeError]; a [best] member that is null, a
    boolean or a number makes it raise [TypeError]; a [best] member that is
    a list or a string makes it raise [TypeError] when it holds the name of
    a category (for a string: as a substring), and gives the empty mapping
    otherwise. *)
Theorem get_services_wrong_shape : forall self v,
  json_decode (_content self) = inr v ->
  (match v with JObj _ => False | _ => True end ->
   get_services self = Raise AttributeError) /\
  (forall top best_data,
      v = JObj top -> dict_get (lit "best") top = Some best_data ->
      match best_data with
      | JNull | JBool _ | JInt _ | JFloat _ =>
          get_services self = Raise TypeError
      | JArr _ | JStr _ =>
          get_services self
          = if names_a_category best_data then Raise TypeError else Ok []
      | JObj _ => True
      end).
Proof.
  intros self v D. destruct (get_services_decoded _ D) as [-> _]. split.
  - destruct v; try reflexivity. intros [].
  - intros top best_data -> B. cbn [PyObj.get]. rewrite B. cbn [bind].
    destruct best_data; try reflexivity; try exact I;
      now apply get_services_loop_sequence.
Qed.

(** X12: with an object under [best], [get_services] returns exactly when
    every category present can be iterated and holds only objects whose price
    is absent, falsy or convertible to a float: one entry that is not so
    loses the services of all the categories. *)
Theorem get_services_all_or_nothing : forall self top best,
  json_decode (_content self) = inr (JObj top) ->
  dict_get (lit "best") top = Some (JObj best) ->
  ((exists result, get_services self = Ok result) <->
   forall category v,
     In category categories -> dict_get category best = Some v ->
     exists items, PyObj.iterate v = Ok items /\ Forall acceptable_entry items).
Proof.
  intros self top best D B.
  destruct (get_services_decoded _ D) as [S _].
  cbn [PyObj.get] in S. rewrite B in S. cbn [bind] in S. rewrite S. split.
  - intros [result E] category v I G.
    destruct (get_services_loop_object best [] categories_NoDup
                (fun c _ => eq_refl) E) as (_ & _ & V).
    destruct (V _ _ I G) as (items & services & It & Tr & _).
    exists items. split; [exact It|].
    apply Forall_forall. intros entry J.
    apply parse_service_accepts.
    destruct (traverse_In _ _ _ Tr J) as [s P]. eauto.
  - intros W. apply get_services_loop_returns. intros c v I G.
    destruct (W c v I G) as (items & It & A). exists items. split; [exact It|].
    intros x J. apply parse_service_accepts.
    rewrite Forall_forall in A. now apply A.
Qed.

(** X13: the keys of a returned mapping are a selection of [stream], [rent]
    and [buy], in this order: no other key, and no key twice. *)
Theorem get_services_keys : forall self result,
  get_services self = Ok result ->
  exists present : str -> bool,
    map fst result = filter present [lit "stream"; lit "rent"; lit "buy"].
Proof.
  intros self result E.
  destruct (json_decode (_content self)) as [msg|v] eqn:D.
  - unfold get_services, get_services_try, json_loads in E. rewrite D in E.
    discriminate E.
  - destruct (get_services_decoded _ D) as [S _]. rewrite S in E.
    destruct v; try discriminate E. cbn [PyObj.get bind] in E.
    set (best_data := match dict_get (lit "best") members with
                      | Some b => b | None => JObj [] end) in E.
    destruct best_data eqn:Bd; try discriminate E.
    + rewrite get_services_loop_sequence in E by exact I.
      destruct (existsb _ categories); [discriminate E|]. injection E as <-.
      now exists (fun _ => false).
    + rewrite get_services_loop_sequence in E by exact I.
      destruct (existsb _ categories); [discriminate E|]. injection E as <-.
      now exists (fun _ => false).
    + destruct (get_services_loop_object members0 [] categories_NoDup
                  (fun c _ => eq_refl) E) as (K & _).
      eexists. exact K.
Qed.

(** X14: a service takes each of its seven text fields from the member of
    the same name, the empty string standing for a missing one, and
    [_parse_service] reads no other member than these and [price]: entries
    that agree on the eight keys give the same result. *)
Theorem parse_service_reads_eight_keys : forall members,
  (forall s, _parse_service (JObj members) = Ok s ->
     name s = member_or_empty (lit "name") members /\
     icon s = member_or_empty (lit "icon") members /\
     locale s = member_or_empty (lit "locale") members /\
     viewUrl s = member_or_empty (lit "viewUrl") members /\
     format s = member_or_empty (lit "format") members /\
     type s = member_or_empty (lit "type") members /\
     currency s = member_or_empty (lit "currency") members) /\
  (forall others,
     (forall key, In key service_keys -> dict_get key others = dict_get key members) ->
     _parse_service (JObj others) = _parse_service (JObj members)).
Proof.
  intros members. split.
  - intros s E. rewrite parse_service_object in E.
    destruct (match dict_get (lit "price") members with Some _ => _ | None => _ end);
      [|discriminate E].
    cbn [bind] in E. injection E as <-. repeat split.
  - intros others A. rewrite !parse_service_object. cbv zeta.
    assert (K : forall k, In (lit k) service_keys ->
                dict_get (lit k) others = dict_get (lit k) members)
      by (intros k; apply A).
    rewrite (K "price"%string), (K "name"%string), (K "icon"%string),
      (K "locale"%string), (K "viewUrl"%string), (K "format"%string),
      (K "type"%string), (K "currency"%string)
      by (unfold service_keys; simpl; tauto).
    reflexivity.
Qed.

End Payloads.

(** ** Examples for the parsers *)

Lemma extract_reviews_in_document_order_witness :
  extract_reviews three_blocks = Ok [plain_review; spoiler_review].
Proof.
  apply extract_reviews_in_document_order.
  exists [Some plain_review; None; Some spoiler_review]. split; [|reflexivity].
  assert (E : review_elements three_blocks = [plain_block; empty_block; spoiler_block])
    by (vm_compute; reflexivity).
  rewrite E. repeat (constructor; [vm_compute; reflexivity|]). constructor.
Defined.

Lemma extract_reviews_first_failure_witness :
  extract_reviews failing_blocks = Raise AttributeError.
Proof.
  apply extract_reviews_first_failure.
  exists [plain_block], bare_block, [spoiler_block].
  split; [vm_compute; reflexivity|]. split; [|vm_compute; reflexivity].
  intros b [<-|[]]. exists (Some plain_review). vm_compute. reflexivity.
Defined.

Lemma user_handle_without_slashes_witness :
  startswith (lit "/") (user plain_review) = false /\
  endswith (lit "/") (user plain_review) = false /\
  (avatar_of plain_block = None -> user plain_review = []) /\
  (forall a i j handle,
      avatar_of plain_block = Some a ->
      dict_get (lit "href") (attrs a) = Some (repeat SLASH i ++ handle ++ repeat SLASH j) ->
      startswith (lit "/") handle = false ->
      endswith (lit "/") handle = false ->
      user plain_review = handle).
Proof.
  apply (user_handle_without_slashes plain_block). vm_compute. reflexivity.
Defined.



Lemma likes_count_rejected_witness :
  _extract_likes_count (liked "12k") = Raise (ValueError None None).
Proof.
  refine (proj1 (likes_count_rejected (liked "12k") (likes_element := likes "12k")
                   (v := lit "12k") _ _ _)).
  - vm_compute. reflexivity.
  - vm_compute. reflexivity.
  - left. exists 0x6B%N. split; [|vm_compute; reflexivity].
    right. right. left. reflexivity.
Defined.

Lemma clean_text_normal_form_witness :
  _clean_review_text padded_text = collapse_and_trim padded_text /\
  single_spaced (_clean_review_text padded_text) = true /\
  (forall c t, _clean_review_text padded_text = c :: t -> isspace c = false) /\
  (forall c t, rev (_clean_review_text padded_text) = c :: t -> isspace c = false) /\
  _clean_review_text (_clean_review_text padded_text) = _clean_review_text padded_text.
Proof.
  refine (clean_text_normal_form padded_text _). vm_compute. reflexivity.
Defined.

Lemma clean_text_empty_witness : _clean_review_text (lit "   ") = [].
Proof.
  apply (proj2 (clean_text_empty (lit "   "))). vm_compute. reflexivity.
Defined.

Lemma review_date_never_raises_witness :
  exists d, _extract_review_date (Some empty_block) = Ok d.
Proof.
  apply (proj2 (review_date_never_raises (Some empty_block))). discriminate.
Defined.

Lemma get_services_wrong_shape_witness :
  get_services {| _content := lit "[]" |} = Raise AttributeError.
Proof.
  refine (proj1 (get_services_wrong_shape {| _content := lit "[]" |} (v := JArr []) _) _).
  - vm_compute. reflexivity.
  - exact I.
Defined.

Lemma get_services_all_or_nothing_witness :
  (exists result, get_services {| _content := stream_and_buy_text |} = Ok result) <->
  forall category v,
    In category categories -> dict_get category stream_and_buy_best = Some v ->
    exists items, PyObj.iterate v = Ok items /\ Forall acceptable_entry items.
Proof.
  apply (get_services_all_or_nothing {| _content := stream_and_buy_text |}
           (top := [(lit "best", JObj stream_and_buy_best)]));
    vm_compute; reflexivity.
Defined.

Lemma get_services_keys_witness :
  exists present : str -> bool,
    map fst [(lit "rent", [named_service "N" None])]
    = filter present [lit "stream"; lit "rent"; lit "buy"].
Proof.
  apply (get_services_keys {| _content := rent_free_text |}). vm_compute. reflexivity.
Defined.

(** ** The scrapers *)

Ltac run_method :=
  unfold then_, read, update, ret, raise, get, raise_for_status in *.

Section MovieScraperProperties.
Context {lib : PyLib} {net : Network}.
Import MovieScraper.

Lemma truthy_str_inv : forall s, truthy_str s = true -> exists c t, s = Some (c :: t).
Proof.
  intros [[|c t]|]; simpl; try discriminate. intros _. exists c, t. reflexivity.
Qed.

(** X15: a call of [MovieScraper.get_reviews_url] that returns leaves the
    movie path known and the IMDb id as it was; when the path was known
    beforehand it changes neither the scraper nor the world; and from then on
    every call returns the same URL and makes no request. *)
Theorem reviews_url_cached (self self' : t) (w w' : world) (reviews_url : str) :
  get_reviews_url self w = (Returned reviews_url, self', w') ->
  truthy_str (_movie_path self') = true /\
  _imdb_id self' = _imdb_id self /\
  (truthy_str (_movie_path self) = true -> self' = self /\ w' = w) /\
  forall w2, get_reviews_url self' w2 = (Returned reviews_url, self', w2).
Proof.
  unfold get_reviews_url, _get_movie_path. run_method.
  destruct (truthy_str (_movie_path self)) eqn:T; cbn [negb].
  - destruct (truthy_str_inv _ T) as (c & p & E). rewrite E.
    intros Q. injection Q as <- <- <-.
    rewrite T. cbn [negb]. rewrite E. repeat split; reflexivity.
  - destruct (requests_get (redirect_request (_imdb_id self)) w) as [[detail|resp] w1];
      [discriminate|].
    destruct (status_code resp =? 302)%Z; cbn [negb]; [|discriminate].
    destruct (location resp) as [[|c loc]|]; cbn [truthy_str]; try discriminate.
    cbn [with_movie_path _movie_path].
    intros Q. injection Q as <- <- <-.
    cbn [_movie_path _imdb_id truthy_str negb].
    repeat split; try reflexivity; discriminate.
Qed.


Lemma fetched_text_raises : forall r w f w',
  fetched_text r w = (Raised f, w') ->
  (exists detail, f = RequestException detail) \/
  (exists status, f = HTTPError status /\ (400 <= status < 600)%Z).
Proof.
  intros r w f w'. unfold fetched_text.
  destruct (requests_get r w) as [[detail|resp] w1].
  - intros Q. injection Q as <- <-. left. exists detail. reflexivity.
  - destruct ((400 <=? status_code resp) && (status_code resp <? 600))%Z eqn:B;
      [|discriminate].
    intros Q. injection Q as <- <-. right. exists (status_code resp). split; [reflexivity|].
    apply andb_true_iff in B. lia.
Qed.

Lemma get_reviews_html_eq : forall self w,
  get_reviews_html self w =
  match get_reviews_url self w with
  | (Returned reviews_url, self', w') =>
      (fst (fetched_text (page_request reviews_url) w'), self',
       snd (fetched_text (page_request reviews_url) w'))
  | (Raised f, self', w') => (Raised f, self', w')
  end.
Proof.
  intros self w. unfold get_reviews_html, fetched_text, page_request. run_method.
  destruct (get_reviews_url self w) as [[[reviews_url|f] self'] w']; [|reflexivity].
  destruct (requests_get _ w') as [[detail|resp] w1]; [reflexivity|].
  destruct ((400 <=? status_code resp) && (status_code resp <? 600))%Z; reflexivity.
Qed.


End MovieScraperProperties.

Section WhereToWatchScraperProperties.
Context {lib : PyLib} {net : Network}.
Import WhereToWatchScraper.

Lemma int_of_str_padded : forall pre n post,
  forallb isspace pre = true -> forallb isspace post = true ->
  int_of_str (pre ++ decimal n ++ post) = Ok (Z.of_N n).
Proof.
  intros pre n post Pre Post. unfold int_of_str.
  rewrite strip_of_padded_digits by assumption.
  now rewrite int_literal_decimal.
Qed.

Lemma get_letterboxd_id_cached : forall self w,
  truthy_str (_movie_path self) = true ->
  _get_letterboxd_id self w =
  (fst (requested_id (_movie_path self) w), self, snd (requested_id (_movie_path self) w)).
Proof.
  intros self w T. unfold _get_letterboxd_id, requested_id. run_method.
  rewrite T. cbn [negb].
  destruct (requests_get (json_request (_movie_path self)) w) as [[detail|resp] w'];
    [reflexivity|].
  destruct ((400 <=? status_code resp) && (status_code resp <? 600))%Z; [reflexivity|].
  destruct (read_id resp) as [id|f]; [reflexivity|].
  destruct (caught f); reflexivity.
Qed.

Lemma get_movie_path_eq : forall self w,
  _get_movie_path self w =
  match requests_get (redirect_request (_imdb_id self)) w with
  | (inl detail, w') => (Raised (RequestException detail), self, w')
  | (inr resp, w') =>
      (if (status_code resp =? 302)%Z
       then match location resp with
            | Some (c :: loc) => Returned (rstrip_chars (lit "/") (c :: loc))
            | _ => Raised LocationNotFound
            end
       else Raised (ExpectedRedirect (status_code resp)), self, w')
  end.
Proof.
  intros self w. unfold _get_movie_path. run_method.
  destruct (requests_get (redirect_request (_imdb_id self)) w) as [[detail|resp] w'];
    [reflexivity|].
  destruct (status_code resp =? 302)%Z; [|reflexivity]. cbn [negb].
  destruct (location resp) as [[|c loc]|]; reflexivity.
Qed.

Lemma get_letterboxd_id_uncached : forall self w,
  truthy_str (_movie_path self) = false ->
  _get_letterboxd_id self w =
  match _get_movie_path self w with
  | (Returned path, _, w1) =>
      (fst (requested_id (Some path) w1), with_movie_path self path,
       snd (requested_id (Some path) w1))
  | (Raised f, _, w1) => (Raised f, self, w1)
  end.
Proof.
  intros self w T. unfold _get_letterboxd_id at 1. unfold then_ at 1 2 3.
  unfold read at 1. rewrite T. cbn [negb]. unfold then_ at 3.
  rewrite get_movie_path_eq.
  destruct (requests_get (redirect_request (_imdb_id self)) w) as [[detail|resp] w1];
    [reflexivity|].
  destruct (status_code resp =? 302)%Z; [|reflexivity].
  destruct (location resp) as [[|c loc]|]; try reflexivity.
  unfold requested_id. run_method. cbn [with_movie_path _movie_path].
  destruct (requests_get _ w1) as [[detail|resp2] w2]; [reflexivity|].
  destruct ((400 <=? status_code resp2) && (status_code resp2 <? 600))%Z; [reflexivity|].
  destruct (read_id resp2) as [id|f]; [reflexivity|].
  destruct (caught f); reflexivity.
Qed.

Lemma read_id_raises : forall resp f,
  read_id resp = Raised f ->
  (caught f = true /\
   ((exists msg, f = Builtin (JSONDecodeError msg)) \/ f = Builtin (ValueError None None))) \/
  (caught f = false /\
   (f = Builtin AttributeError \/ f = Builtin TypeError \/ f = Builtin OverflowError)).
Proof.
  intros resp f. unfold read_id.
  destruct (json_body resp) as [msg|data].
  - intros Q. injection Q as <-. left. split; [reflexivity|]. left. now exists msg.
  - destruct data as [|b|n|x|s|items|members]; cbn [PyObj.get];
      try (intros Q; injection Q as <-; right; split; [reflexivity | tauto]).
    destruct (dict_get (lit "id") members) as [v|];
      [|intros Q; injection Q as <-; right; split; [reflexivity | tauto]].
    destruct v as [|b|n|x|s|items|ms]; cbn [int_of_json]; try discriminate;
      try (intros Q; injection Q as <-; right; split; [reflexivity | tauto]).
    + destruct x; try discriminate; intros Q; injection Q as <-.
      * right. split; [reflexivity | tauto].
      * left. split; [reflexivity | tauto].
    + unfold int_of_str. destruct (int_literal (strip s)); [discriminate|].
      intros Q; injection Q as <-. left. split; [reflexivity | tauto].
Qed.

Lemma requested_id_raises : forall path w f w',
  requested_id path w = (Raised f, w') ->
  match f with
  | IdNotExtracted e =>
      (exists msg, e = Builtin (JSONDecodeError msg)) \/ e = Builtin (ValueError None None)
  | Builtin e => e = AttributeError \/ e = TypeError \/ e = OverflowError
  | HTTPError status => (400 <= status < 600)%Z
  | RequestException _ => True
  | _ => False
  end.
Proof.
  intros path w f w'. unfold requested_id.
  destruct (requests_get (json_request path) w) as [[detail|resp] w1].
  - intros Q. injection Q as <- <-. exact Logic.I.
  - destruct ((400 <=? status_code resp) && (status_code resp <? 600))%Z eqn:B.
    + intros Q. injection Q as <- <-. apply andb_true_iff in B. lia.
    + destruct (read_id resp) as [id|g] eqn:R; [discriminate|].
      intros Q. injection Q as <- <-.
      destruct (read_id_raises _ R) as [[C K]|[C K]]; rewrite C.
      * exact K.
      * destruct K as [->|[->| ->]]; tauto.
Qed.


Lemma rstrip_chars_fixed : forall chars s,
  rstrip_chars chars (rstrip_chars chars s) = rstrip_chars chars s.
Proof.
  intros chars s. unfold rstrip_chars, rstrip_by. rewrite rev_involutive.
  f_equal. set (f := fun c => existsb (char_eqb c) chars).
  induction (rev s) as [|c r IH]; [reflexivity|]. simpl.
  destruct (f c) eqn:E; [exact IH|]. simpl. now rewrite E.
Qed.

Lemma rstrip_chars_nil : forall chars s,
  rstrip_chars chars s = [] <-> forallb (fun c => existsb (char_eqb c) chars) s = true.
Proof.
  intros chars s. unfold rstrip_chars, rstrip_by. split.
  - intros E. apply (f_equal (@rev char)) in E. rewrite rev_involutive in E.
    simpl in E. apply lstrip_by_nil in E.
    rewrite forallb_forall in *. intros c I. apply E, in_rev. now rewrite rev_involutive.
  - intros F. assert (L : lstrip_by (fun c => existsb (char_eqb c) chars) (rev s) = []).
    { apply lstrip_by_nil. rewrite forallb_forall in *. intros c I. now apply F, in_rev. }
    now rewrite L.
Qed.

Lemma get_letterboxd_id_keeps : forall self self' w w' (r : outcome Z),
  _get_letterboxd_id self w = (r, self', w') ->
  _imdb_id self' = _imdb_id self /\ _country self' = _country self /\
  _letterboxd_id self' = _letterboxd_id self.
Proof.
  intros self self' w w' r E. destruct (truthy_str (_movie_path self)) eqn:T.
  - rewrite (get_letterboxd_id_cached _ _ T) in E. injection E as _ <- _.
    repeat split.
  - rewrite (get_letterboxd_id_uncached _ _ T) in E.
    destruct (_get_movie_path self w) as [[[path|f] self1] w1];
      injection E as _ <- _; repeat split.
Qed.

(** X19: [_get_letterboxd_id] never writes the id, the country or the IMDb
    id; with the movie path known it writes nothing; and a path that it has
    looked up is stored, without trailing slash, whatever the request for
    the id gives afterwards, a failure included. *)
Theorem letterboxd_id_fields (self self' : t) (w w' : world) (r : outcome Z) :
  _get_letterboxd_id self w = (r, self', w') ->
  _imdb_id self' = _imdb_id self /\ _country self' = _country self /\
  _letterboxd_id self' = _letterboxd_id self /\
  (truthy_str (_movie_path self) = true -> self' = self) /\
  (forall path w1,
      truthy_str (_movie_path self) = false ->
      _get_movie_path self w = (Returned path, self, w1) ->
      _movie_path self' = Some path /\ rstrip_chars (lit "/") path = path).
Proof.
  intros E.
  assert (K : forall path w1,
             _get_movie_path self w = (Returned path, self, w1) ->
             rstrip_chars (lit "/") path = path).
  { intros path w1. rewrite get_movie_path_eq.
    destruct (requests_get (redirect_request (_imdb_id self)) w) as [[detail|resp] w2];
      [discriminate|].
    destruct (status_code resp =? 302)%Z; [|discriminate].
    destruct (location resp) as [[|c loc]|]; try discriminate.
    intros Q. injection Q as <- _. apply rstrip_chars_fixed. }
  destruct (truthy_str (_movie_path self)) eqn:T.
  - rewrite (get_letterboxd_id_cached _ _ T) in E. injection E as _ <- _.
    do 4 (split; [reflexivity|]). intros; discriminate.
  - rewrite (get_letterboxd_id_uncached _ _ T) in E.
    destruct (_get_movie_path self w) as [[[path|f] self1] w1] eqn:M.
    + injection E as _ <- _.
      do 3 (split; [reflexivity|]). split; [discriminate|].
      intros p w2 _ Q. injection Q as <- -> ->.
      split; [reflexivity|]. apply (K path w2). reflexivity.
    + injection E as _ <- _.
      do 3 (split; [reflexivity|]). split; [discriminate|].
      intros p w2 _ Q. discriminate Q.
Qed.


Lemma get_services_json_cached : forall self w,
  truthy_int (_letterboxd_id self) = true ->
  get_services_json self w =
  (fst (fetched_text (availability_request (_letterboxd_id self) (_country self)) w),
   self,
   snd (fetched_text (availability_request (_letterboxd_id self) (_country self)) w)).
Proof.
  intros self w T. unfold get_services_json, fetched_text. run_method.
  rewrite T. cbn [negb].
  destruct (requests_get _ w) as [[detail|resp] w1]; [reflexivity|].
  destruct ((400 <=? status_code resp) && (status_code resp <? 600))%Z; reflexivity.
Qed.

Lemma get_services_json_uncached : forall self w,
  truthy_int (_letterboxd_id self) = false ->
  get_services_json self w =
  match _get_letterboxd_id self w with
  | (Returned id, self1, w1) =>
      (fst (fetched_text (availability_request (Some id) (_country self1)) w1),
       with_letterboxd_id self1 id,
       snd (fetched_text (availability_request (Some id) (_country self1)) w1))
  | (Raised f, self1, w1) => (Raised f, self1, w1)
  end.
Proof.
  intros self w T. unfold get_services_json at 1. unfold then_ at 1 2 3.
  unfold read at 1. rewrite T. cbn [negb]. unfold then_ at 3.
  destruct (_get_letterboxd_id self w) as [[[id|f] self1] w1]; [|reflexivity].
  unfold fetched_text. run_method. cbn [with_letterboxd_id _letterboxd_id _country].
  destruct (requests_get _ w1) as [[detail|resp] w2]; [reflexivity|].
  destruct ((400 <=? status_code resp) && (status_code resp <? 600))%Z; reflexivity.
Qed.

(** X21: a call of [get_services_json] that returns keeps the IMDb id and
    the country, changes nothing in the scraper when a non-zero id was known,
    and leaves an id stored; when that id is not zero, every later call is
    the one request for the availability, with that id as [filmId] and the
    country as [locale], and leaves the scraper as it is. *)
Theorem services_json_cached (self self' : t) (w w' : world) (services : str) :
  get_services_json self w = (Returned services, self', w') ->
  _imdb_id self' = _imdb_id self /\ _country self' = _country self /\
  (truthy_int (_letterboxd_id self) = true -> self' = self) /\
  exists id,
    _letterboxd_id self' = Some id /\
    (id <> 0%Z ->
     forall w2,
       get_services_json self' w2 =
       (fst (fetched_text (availability_request (Some id) (_country self)) w2),
        self',
        snd (fetched_text (availability_request (Some id) (_country self)) w2))).
Proof.
  intros E. destruct (truthy_int (_letterboxd_id self)) eqn:T.
  - rewrite (get_services_json_cached _ _ T) in E. injection E as _ <- _.
    do 3 (split; [reflexivity|]).
    assert (exists id, _letterboxd_id self = Some id) as [id L].
    { destruct (_letterboxd_id self) as [id|]; [now exists id | discriminate]. }
    exists id. split; [exact L|]. intros _ w2.
    rewrite (get_services_json_cached _ _ T), L. reflexivity.
  - rewrite (get_services_json_uncached _ _ T) in E.
    destruct (_get_letterboxd_id self w) as [[[id|f] self1] w1] eqn:G; [|discriminate].
    destruct (get_letterboxd_id_keeps _ _ G) as (Same & C & _).
    injection E as _ <- _. cbn [with_letterboxd_id _imdb_id _country _letterboxd_id].
    do 2 (split; [assumption|]). split; [discriminate|].
    exists id. split; [reflexivity|]. intros N w2.
    rewrite get_services_json_cached.
    + cbn [with_letterboxd_id _letterboxd_id _country]. rewrite C. reflexivity.
    + cbn [_letterboxd_id truthy_int]. apply negb_true_iff, Z.eqb_neq. exact N.
Qed.

Lemma get_letterboxd_id_without : forall self w,
  _get_letterboxd_id (without_letterboxd_id self) w =
  (fst (fst (_get_letterboxd_id self w)),
   without_letterboxd_id (snd (fst (_get_letterboxd_id self w))),
   snd (_get_letterboxd_id self w)).
Proof.
  intros self w. destruct (truthy_str (_movie_path self)) eqn:T.
  - rewrite !get_letterboxd_id_cached by exact T. reflexivity.
  - rewrite !get_letterboxd_id_uncached by exact T.
    rewrite !get_movie_path_eq. cbn [without_letterboxd_id _imdb_id].
    destruct (requests_get (redirect_request (_imdb_id self)) w) as [[detail|resp] w1];
      [reflexivity|].
    destruct (status_code resp =? 302)%Z; [|reflexivity].
    destruct (location resp) as [[|c loc]|]; reflexivity.
Qed.

(** X22: the caches are tested for truth.  A stored id of zero counts as
    unknown: the call gives the same outcome and makes the same requests as
    on the scraper without an id.  A redirect whose location is made of
    slashes only stores the empty path: the id is asked for at [/json/], and
    the path still counts as unknown. *)
Theorem falsy_values_are_looked_up_again (self : t) (w : world) :
  (_letterboxd_id self = Some 0%Z ->
   fst (fst (get_services_json self w))
     = fst (fst (get_services_json (without_letterboxd_id self) w)) /\
   snd (get_services_json self w) = snd (get_services_json (without_letterboxd_id self) w)) /\
  (forall resp w1 k,
      truthy_str (_movie_path self) = false ->
      requests_get (redirect_request (_imdb_id self)) w = (inr resp, w1) ->
      status_code resp = 302%Z ->
      location resp = Some (repeat SLASH (S k)) ->
      _get_letterboxd_id self w =
      (fst (requested_id (Some []) w1), with_movie_path self [],
       snd (requested_id (Some []) w1)) /\
      truthy_str (_movie_path (with_movie_path self [])) = false).
Proof.
  split.
  - intros Zero. rewrite !get_services_json_uncached;
      [|reflexivity | now rewrite Zero].
    rewrite get_letterboxd_id_without.
    destruct (_get_letterboxd_id self w) as [[[id|f] self1] w1]; cbn [fst snd];
      split; reflexivity.
  - intros resp w1 k T G St L. split; [|reflexivity].
    rewrite (get_letterboxd_id_uncached _ _ T), get_movie_path_eq, G, St, L.
    cbn [repeat Z.eqb Pos.eqb].
    assert (R : rstrip_chars (lit "/") (SLASH :: repeat SLASH k) = []).
    { apply rstrip_chars_nil. change (SLASH :: repeat SLASH k) with (repeat SLASH (S k)).
      apply forallb_forall. intros c I. apply repeat_spec in I. now subst c. }
    now rewrite R.
Qed.

End WhereToWatchScraperProperties.

(** ** Examples for the scrapers *)

Lemma reviews_url_cached_witness :
  truthy_str (MovieScraper._movie_path heat_found) = true /\
  MovieScraper._imdb_id heat_found = MovieScraper._imdb_id heat /\
  (truthy_str (MovieScraper._movie_path heat) = true ->
   heat_found = heat /\ asked [heat_redirect] = asked []) /\
  forall w2,
    MovieScraper.get_reviews_url (lib := site_lib) heat_found w2
    = (Returned heat_reviews_url, heat_found, w2).
Proof.
  apply (reviews_url_cached (lib := site_lib) heat (asked []) (w' := asked [heat_redirect])).
  vm_compute. reflexivity.
Defined.




Lemma letterboxd_id_fields_witness :
  WhereToWatchScraper._imdb_id heat_in_spain_found
    = WhereToWatchScraper._imdb_id heat_in_spain /\
  WhereToWatchScraper._country heat_in_spain_found
    = WhereToWatchScraper._country heat_in_spain /\
  WhereToWatchScraper._letterboxd_id heat_in_spain_found
    = WhereToWatchScraper._letterboxd_id heat_in_spain /\
  (truthy_str (WhereToWatchScraper._movie_path heat_in_spain) = true ->
   heat_in_spain_found = heat_in_spain) /\
  (forall path w1,
      truthy_str (WhereToWatchScraper._movie_path heat_in_spain) = false ->
      WhereToWatchScraper._get_movie_path (lib := site_lib) heat_in_spain (asked [])
        = (Returned path, heat_in_spain, w1) ->
      WhereToWatchScraper._movie_path heat_in_spain_found = Some path /\
      rstrip_chars (lit "/") path = path).
Proof.
  apply (letterboxd_id_fields (lib := site_lib) heat_in_spain (asked [])
           (w' := asked [heat_json; heat_in_spain_redirect]) (r := Returned 51994%Z)).
  vm_compute. reflexivity.
Defined.


Lemma services_json_cached_witness :
  WhereToWatchScraper._imdb_id heat_in_spain_known
    = WhereToWatchScraper._imdb_id heat_in_spain /\
  WhereToWatchScraper._country heat_in_spain_known
    = WhereToWatchScraper._country heat_in_spain /\
  (WhereToWatchScraper.truthy_int (WhereToWatchScraper._letterboxd_id heat_in_spain) = true ->
   heat_in_spain_known = heat_in_spain) /\
  exists id,
    WhereToWatchScraper._letterboxd_id heat_in_spain_known = Some id /\
    (id <> 0%Z ->
     forall w2,
       WhereToWatchScraper.get_services_json (lib := site_lib) heat_in_spain_known w2 =
       (fst (fetched_text
               (WhereToWatchScraper.availability_request
                  (Some id) (WhereToWatchScraper._country heat_in_spain)) w2),
        heat_in_spain_known,
        snd (fetched_text
               (WhereToWatchScraper.availability_request
                  (Some id) (WhereToWatchScraper._country heat_in_spain)) w2))).
Proof.
  apply (services_json_cached (lib := site_lib) heat_in_spain (asked [])
           (w' := asked [heat_availability; heat_json; heat_in_spain_redirect])
           (services := rent_free_text)).
  vm_compute. reflexivity.
Defined.

Lemma falsy_values_are_looked_up_again_witness :
  WhereToWatchScraper._get_letterboxd_id (lib := site_lib) rootless (asked [])
  = (Raised (RequestException (lit "connection refused")),
     WhereToWatchScraper.with_movie_path rootless [],
     asked [WhereToWatchScraper.json_request (lib := site_lib) (Some []);
            WhereToWatchScraper.redirect_request (lib := site_lib) (lit "tt0000001")]) /\
  truthy_str (WhereToWatchScraper._movie_path
                (WhereToWatchScraper.with_movie_path rootless [])) = false.
Proof.
  apply (proj2 (falsy_values_are_looked_up_again (lib := site_lib) rootless (asked []))
           {| status_code := 302; location := Some (lit "/"); text := [];
              json_body := not_json |}
           (asked [WhereToWatchScraper.redirect_request (lib := site_lib) (lit "tt0000001")])
           0%nat);
    vm_compute; reflexivity.
Defined.

(** ** What the rating raises *)

Lemma startswith_app : forall prefix s,
  startswith prefix s = true -> exists rest, s = prefix ++ rest.
Proof.
  induction prefix as [|p prefix IH]; intros s E; [now exists s|].
  destruct s as [|c s]; [discriminate|]. simpl in E.
  apply andb_true_iff in E as [C E]. apply N.eqb_eq in C. subst c.
  destruct (IH _ E) as [rest ->]. now exists rest.
Qed.

Lemma split_acc_nonempty : forall sep s cur, split_acc sep cur s <> [].
Proof.
  intros sep. induction s as [|c s IH]; intros cur; simpl; [discriminate|].
  destruct (char_eqb c sep); [discriminate | apply IH].
Qed.

(** A token that starts with [rated-] has a part after its first hyphen. *)
Lemma second_part_of_rated : forall token,
  startswith (lit "rated-") token = true -> exists part, second_part token = Ok part.
Proof.
  intros token E. destruct (startswith_app _ _ E) as [rest ->].
  unfold second_part, split.
  change (split_acc HYPHEN [] (lit "rated-" ++ rest))
    with (lit "rated" :: split_acc HYPHEN [] rest).
  destruct (split_acc HYPHEN [] rest) as [|part parts] eqn:S.
  - now apply split_acc_nonempty in S.
  - now exists part.
Qed.

Lemma split_acc_first : forall sep part cur tail,
  Forall (fun c => char_eqb c sep = false) part ->
  tail = [] \/ (exists t, tail = sep :: t) ->
  exists parts, split_acc sep cur (part ++ tail) = (rev cur ++ part) :: parts.
Proof.
  intros sep. induction part as [|c part IH]; intros cur tail F T; simpl.
  - rewrite app_nil_r. destruct T as [->|[t ->]]; simpl.
    + now exists [].
    + unfold char_eqb. rewrite N.eqb_refl. eauto.
  - inversion F as [|? ? C F']; subst. rewrite C.
    destruct (IH (c :: cur) tail F' T) as [parts ->]. simpl.
    rewrite <- app_assoc. eauto.
Qed.

Lemma float_of_scaled_raises : forall n e x,
  float_of_scaled n e = Raise x -> x = OverflowError.
Proof.
  intros n e x. unfold float_of_scaled.
  destruct (binary_normalize prec emax n e false); try discriminate.
  intros E. now injection E as <-.
Qed.

Lemma int_of_str_raises : forall s e, int_of_str s = Raise e -> e = ValueError None None.
Proof.
  intros s e. unfold int_of_str. destruct (int_literal (strip s)); [discriminate|].
  intros E. now injection E as <-.
Qed.

Section RatingFailures.
Context `{PyLib}.

(** X23: [_extract_rating] raises [AttributeError] exactly for a missing
    attribution block among its failures, and otherwise only the
    [ValueError] of [int] or an [OverflowError]: the [KeyError] of
    [rating_span['class']] and the [IndexError] of [split('-')[1]] never
    happen, since the span was found by its class and a token that starts
    with [rated-] has a hyphen. *)
Theorem rating_failures : forall attribution_block e,
  _extract_rating attribution_block = Raise e ->
  (attribution_block = None /\ e = AttributeError) \/
  (attribution_block <> None /\ (e = ValueError None None \/ e = OverflowError)).
Proof.
  intros [block|] e; [|intros E; injection E as <-; now left].
  intros E. right. split; [discriminate|]. unfold _extract_rating in E.
  destruct (find (lit "span") (Some (lit "rating")) block) as [rating_span|] eqn:F;
    [|discriminate].
  apply find_some in F as [M _]. unfold matches in M.
  apply andb_true_iff in M as [_ M]. unfold has_class in M.
  unfold getitem_class in E.
  destruct (class_ rating_span) as [classes|]; [|discriminate]. cbn [bind] in E.
  destruct (filter (startswith (lit "rated-")) classes) as [|token others] eqn:Fl.
  - destruct (strip (get_text rating_span)) as [|c stars_text]; [discriminate|].
    unfold stars_rating, int_add_float, float_of_int in E.
    destruct (float_of_scaled _ 0) as [x|e'] eqn:S; cbn [bind] in E; [discriminate|].
    injection E as <-. right. exact (float_of_scaled_raises _ _ S).
  - assert (I : In token (filter (startswith (lit "rated-")) classes))
      by (rewrite Fl; now left).
    apply filter_In in I as [_ St].
    destruct (second_part_of_rated _ St) as [part P]. rewrite P in E. cbn [bind] in E.
    destruct (int_of_str part) as [n|e'] eqn:N; cbn [bind] in E.
    + unfold int_truediv_2 in E.
      destruct (float_of_scaled n (-1)) as [x|e'] eqn:S; cbn [bind] in E; [discriminate|].
      injection E as <-. right. exact (float_of_scaled_raises _ _ S).
    + injection E as <-. left. exact (int_of_str_raises _ N).
Qed.

(** X24: when the part of the first [rated-] token between its first hyphen
    and the next one (or the end) is empty, white space, or holds an ASCII
    character of no integer literal, [_extract_rating] raises [ValueError]:
    the tokens [rated-] and [rated--3] give no rating, and no negative
    one. *)
Theorem rating_token_rejected : forall block rating_span classes part tail others,
  find (lit "span") (Some (lit "rating")) block = Some rating_span ->
  class_ rating_span = Some classes ->
  filter (startswith (lit "rated-")) classes = (lit "rated-" ++ part ++ tail) :: others ->
  Forall (fun c => char_eqb c HYPHEN = false) part ->
  tail = [] \/ (exists t, tail = HYPHEN :: t) ->
  (exists c, In c part /\ not_in_int_literal c = true) \/ forallb isspace part = true ->
  _extract_rating (Some block) = Raise (ValueError None None).
Proof.
  intros block rating_span classes part tail others F C Fl NoHyphen T B.
  unfold _extract_rating, getitem_class. rewrite F, C. cbn [bind]. rewrite Fl.
  assert (P : second_part (lit "rated-" ++ part ++ tail) = Ok part).
  { unfold second_part, split.
    change (split_acc HYPHEN [] (lit "rated-" ++ part ++ tail))
      with (lit "rated" :: split_acc HYPHEN [] (part ++ tail)).
    destruct (split_acc_first [] NoHyphen T) as [parts ->]. reflexivity. }
  rewrite P. cbn [bind]. now rewrite (int_of_str_rejects part B).
Qed.

End RatingFailures.

Section ParseError.
Context `{PyLib}.


End ParseError.

(** ** Examples for the rating and the parse error *)

Lemma rating_failures_witness :
  (Some (rated "rated-") = None /\ ValueError None None = AttributeError) \/
  (Some (rated "rated-") <> None /\
   (ValueError None None = ValueError None None \/ ValueError None None = OverflowError)).
Proof.
  apply (rating_failures (Some (rated "rated-"))). vm_compute. reflexivity.
Defined.

Lemma rating_token_rejected_witness :
  _extract_rating (Some (rated "rated--3")) = Raise (ValueError None None).
Proof.
  apply (rating_token_rejected (rated "rated--3")
           (rating_span := el "span" ["rating"; "rated--3"]%string [] [])
           (classes := [lit "rating"; lit "rated--3"])
           (part := []) (tail := lit "-3") (others := [])).
  - vm_compute. reflexivity.
  - reflexivity.
  - vm_compute. reflexivity.
  - constructor.
  - right. exists (lit "3"). reflexivity.
  - right. reflexivity.
Defined.

